(** * Music-Organizer: a shallow embedding of [music_organizer.py]

    The development follows the source file top-down: Python strings and
    [pathlib] paths, [sanitize_filename], the clip window chosen by
    [create_random_clip], then the effectful part of [AudioOrganizer]
    (file system, temporary files, HTTP transport, [time.sleep]) as a
    state-and-exception monad over an explicit world. *)

From Stdlib Require Import ZArith NArith Ascii String.
From stdpp Require Import gmap list sets.

Local Open Scope Z_scope.

(** ** Python strings

    A Python [str] is a sequence of Unicode code points; [len] counts code
    points.  We keep that view: a string is a list of code points. *)

Abbreviation pystr := (list N).

(** [py "abc"] is the Python literal ['abc'] (ASCII literals only). *)
Definition py (s : string) : pystr :=
  (fun a => N_of_ascii a) <$> list_ascii_of_string s.

Module PyStr.

(** [name.replace(old, new)] for one-character [old] and [new]. *)
Definition replace (old new : N) (name : pystr) : pystr :=
  (fun c => if N.eqb c old then new else c) <$> name.

(** [name.lstrip(chars)], [name.rstrip(chars)], [name.strip(chars)]. *)
Fixpoint lstrip (chars : pystr) (name : pystr) : pystr :=
  match name with
  | [] => []
  | c :: rest => if bool_decide (c ∈ chars) then lstrip chars rest else name
  end.

Definition rstrip (chars : pystr) (name : pystr) : pystr :=
  reverse (lstrip chars (reverse name)).

Definition strip (chars : pystr) (name : pystr) : pystr :=
  rstrip chars (lstrip chars name).

(** The code points for which [str.isspace] holds: what the
    argument-less [str.strip()] removes. *)
Definition isspace (c : N) : bool :=
  ((9 <=? c) && (c <=? 13) || (28 <=? c) && (c <=? 32) || (c =? 133)
   || (c =? 160) || (c =? 5760) || (8192 <=? c) && (c <=? 8202)
   || (c =? 8232) || (c =? 8233) || (c =? 8239) || (c =? 8287)
   || (c =? 12288))%N.

Fixpoint lstrip_space (name : pystr) : pystr :=
  match name with
  | [] => []
  | c :: rest => if isspace c then lstrip_space rest else name
  end.

Definition strip_space (name : pystr) : pystr :=
  reverse (lstrip_space (reverse (lstrip_space name))).

(** [name.lower()] on the ASCII range.  (Outside ASCII only U+0130 and
    U+212A lower-case to something containing an ASCII letter, [i] and
    [k]; neither occurs in a supported suffix, so suffix tests are not
    affected by leaving the other code points alone.) *)
Definition lower (name : pystr) : pystr :=
  (fun c => if (65 <=? c) && (c <=? 90) then c + 32 else c)%N <$> name.

(** [re.sub(r'\([^)]*\)', '', name)] and [re.sub(r'\[[^\]]*\]', '', name)],
    for an opening delimiter [op] and a closing delimiter [cl]: scanning
    left to right, at an [op] the pattern matches exactly when a [cl]
    occurs later; the match then runs to the first such [cl] and the scan
    resumes behind it.  Where there is no match the character is kept.
    [match_tail] is the attempt to match [[^cl]*cl] and, on success,
    already continues the substitution behind the match. *)
Fixpoint re_sub_group (op cl : N) (name : pystr) : pystr :=
  match name with
  | [] => []
  | c :: rest =>
      if N.eqb c op then
        match match_tail op cl rest with
        | Some out => out
        | None => c :: re_sub_group op cl rest
        end
      else c :: re_sub_group op cl rest
  end
with match_tail (op cl : N) (name : pystr) : option pystr :=
  match name with
  | [] => None
  | c :: rest =>
      if N.eqb c cl then Some (re_sub_group op cl rest)
      else match_tail op cl rest
  end.

End PyStr.

(** ** [AudioOrganizer.sanitize_filename] *)

(** [invalid_chars]: the nine characters less-than, greater-than, colon,
    double quote, slash, backslash, vertical bar, question mark and
    asterisk, as code points. *)
Definition invalid_chars : pystr := [60; 62; 58; 34; 47; 92; 124; 63; 42]%N.

Definition underscore : N := 95%N.
Definition lparen : N := 40%N.
Definition rparen : N := 41%N.
Definition lbracket : N := 91%N.
Definition rbracket : N := 93%N.

Definition sanitize_filename (name : pystr) : pystr :=
  (* for char in invalid_chars: name = name.replace(char, '_') *)
  let name := fold_left (fun name char => PyStr.replace char underscore name)
                        invalid_chars name in
  let name := PyStr.re_sub_group lparen rparen name in
  let name := PyStr.re_sub_group lbracket rbracket name in
  let name := PyStr.strip (py ". ") name in
  let name := if bool_decide (100 < length name)%nat then take 100 name else name in
  (* return name or "Unknown" *)
  match name with [] => py "Unknown" | _ => name end.


(** ** [pathlib] paths

    A path is the list of its components ([PurePath.parts]); [p / name]
    appends one component. *)

Abbreviation Path := (list pystr).

Module PyPath.

Definition div (p : Path) (name : pystr) : Path := p ++ [name].

(** [p.name]: the last component. *)
Definition name (p : Path) : pystr := List.last p [].

(** [p.parent]. *)
Definition parent (p : Path) : Path := removelast p.

(** [s.rfind(c)] for a one-character [c]. *)
Fixpoint rfind (c : N) (s : pystr) : option nat :=
  match s with
  | [] => None
  | x :: rest =>
      match rfind c rest with
      | Some i => Some (S i)
      | None => if N.eqb x c then Some O else None
      end
  end.

(** [p.suffix]: with [i = name.rfind('.')], the text [name[i:]] when
    [0 < i < len(name) - 1], and the empty string otherwise. *)
Definition suffix (p : Path) : pystr :=
  let nm := name p in
  match rfind 46%N nm with
  | Some i => if bool_decide (0 < i ∧ i < length nm - 1)%nat then drop i nm else []
  | None => []
  end.

(** All non-empty prefixes of [p], shortest first: its ancestors and
    [p] itself. *)
Fixpoint ancestors_and_self (p : Path) : list Path :=
  match p with
  | [] => []
  | x :: rest => [x] :: ((fun q => x :: q) <$> ancestors_and_self rest)
  end.

End PyPath.

Infix "</>" := PyPath.div (at level 40, left associativity).

(** ** Data of the program *)

Abbreviation bytes := (list Byte.byte).

(** The identification result: the [result] object of the service's JSON
    answer, with the fields the program reads, each a string (or an
    object) when present and [None] when the key is absent; [other_keys]
    counts the keys the program never looks at (they matter for the truth
    value of the dict only). *)
Record AppleMusic := { albumName : option pystr }.
Record SpotifyAlbum := { album_name : option pystr }.
Record Spotify := { spotify_album : option SpotifyAlbum }.

Record SongInfo := {
  artist : option pystr;
  title : option pystr;
  album : option pystr;
  apple_music : option AppleMusic;
  spotify : option Spotify;
  other_keys : nat;
}.

(** The JSON body of an answer: [{status, result?}]. *)
Record ApiBody := {
  json_status : pystr;
  json_result : option SongInfo;
}.

(** What one [requests.post] call does: raise, or answer with a status
    code and a body ([None]: [response.json()] raises). *)
Inductive exn :=
| FileNotFoundError | IsADirectoryError | NotADirectoryError | FileExistsError
| ShutilError | ValueError
| CouldntDecodeError | CouldntEncodeError
| Timeout | ConnectionError | JSONDecodeError.

Inductive http_outcome :=
| HttpRaises (e : exn)
| HttpResponse (status_code : Z) (json : option ApiBody).

(** The part of the source audio handed to the encoder: [clip = audio] or
    [clip = audio[clip_start:clip_end]] (milliseconds). *)
Inductive Clip :=
| Whole
| Slice (clip_start clip_end : Z).

(** A node of the file system. *)
Inductive node :=
| File (data : bytes)
| Dir.

(** An entry of [processed_files]. *)
Record Entry := {
  original_path : Path;
  target_path : Path;
  entry_artist : pystr;
  entry_title : pystr;
  entry_album : pystr;
}.

(** [ProcessingStats]. *)
Record ProcessingStats := {
  total : Z;
  success : Z;
  failed : Z;
  skipped : Z;
  duplicates : Z;
}.

(** The dict that [save_results] dumps. *)
Record Results := {
  results_stats : ProcessingStats;
  results_processed_files : list Entry;
  results_failed_files : list Path;
}.

(** A [time.sleep] call: a backoff of [2 ** attempt] seconds inside
    [identify_song], or the inter-file [delay] of [organize_library] (a
    float, of which only the sign is looked at). *)
Inductive nap :=
| Backoff (seconds : Z)
| Delay.

(** ** The environment

    The libraries the program calls are not part of it; what they compute
    is a parameter of the model. *)
Record Env := {
  (** [hashlib.md5(data).hexdigest()] *)
  md5 : bytes -> pystr;
  (** [len(AudioSegment.from_file(...))] in milliseconds for the file's
      bytes; [None] when decoding raises *)
  from_file : bytes -> option N;
  (** [clip.export(name, format="mp3", bitrate="128k")]: the encoded
      bytes; [None] when encoding raises *)
  export : bytes -> Clip -> option bytes;
  (** the name [tempfile.NamedTemporaryFile] picks, given the file system *)
  mktemp : gmap Path node -> Path;
  (** the raw value behind the n-th [random.randint] *)
  randbits : nat -> Z;
  (** the n-th [requests.post], given the uploaded bytes *)
  post : nat -> bytes -> http_outcome;
  (** the order in which [rglob] yields the paths below a folder *)
  scan_order : list Path -> list Path;
  (** [json.dump(results, f, indent=2, ensure_ascii=False)] *)
  json_dump : Results -> bytes;
}.

(** [tempfile] never hands out a name that is in use. *)
Definition fresh_names (E : Env) : Prop :=
  forall fs : gmap Path node, fs !! mktemp E fs = None.

(** [rglob] yields each path once. *)
Definition scan_permutes (E : Env) : Prop :=
  forall l : list Path, scan_order E l ≡ₚ l.

(** The constructor arguments of [AudioOrganizer]. *)
Record Config := {
  api_token : pystr;
  input_folder : Path;
  output_folder : Path;
  dry_run : bool;
  clip_duration : Z;
}.

(** The world: the file system and the counters of the environment, and
    the mutable fields of the [AudioOrganizer] object. *)
Record World := {
  fs : gmap Path node;
  rng : nat;
  http : nat;
  sleeps : list nap;
  file_hashes : gmap pystr Path;
  processed_files : list Entry;
  failed_files : list Path;
}.

Definition set_fs (f : gmap Path node) (w : World) : World :=
  {| fs := f; rng := rng w; http := http w; sleeps := sleeps w;
     file_hashes := file_hashes w; processed_files := processed_files w;
     failed_files := failed_files w |}.

Definition set_rng (n : nat) (w : World) : World :=
  {| fs := fs w; rng := n; http := http w; sleeps := sleeps w;
     file_hashes := file_hashes w; processed_files := processed_files w;
     failed_files := failed_files w |}.

Definition set_http (n : nat) (w : World) : World :=
  {| fs := fs w; rng := rng w; http := n; sleeps := sleeps w;
     file_hashes := file_hashes w; processed_files := processed_files w;
     failed_files := failed_files w |}.

Definition set_sleeps (l : list nap) (w : World) : World :=
  {| fs := fs w; rng := rng w; http := http w; sleeps := l;
     file_hashes := file_hashes w; processed_files := processed_files w;
     failed_files := failed_files w |}.

Definition set_file_hashes (h : gmap pystr Path) (w : World) : World :=
  {| fs := fs w; rng := rng w; http := http w; sleeps := sleeps w;
     file_hashes := h; processed_files := processed_files w;
     failed_files := failed_files w |}.

Definition set_processed_files (l : list Entry) (w : World) : World :=
  {| fs := fs w; rng := rng w; http := http w; sleeps := sleeps w;
     file_hashes := file_hashes w; processed_files := l;
     failed_files := failed_files w |}.

Definition set_failed_files (l : list Path) (w : World) : World :=
  {| fs := fs w; rng := rng w; http := http w; sleeps := sleeps w;
     file_hashes := file_hashes w; processed_files := processed_files w;
     failed_files := l |}.

(** ** The monad: state and exceptions

    A computation takes the world and gives back a value or a raised
    exception, and the world as it left it (what was mutated before a
    [raise] stays mutated). *)
Inductive outcome (A : Type) :=
| Ok (a : A)
| Raise (e : exn).
Arguments Ok {A} a.
Arguments Raise {A} e.

Definition M (A : Type) : Type := World -> outcome A * World.

Definition ret {A} (a : A) : M A := fun w => (Ok a, w).

Definition raise {A} (e : exn) : M A := fun w => (Raise e, w).

Definition bind {A B} (m : M A) (k : A -> M B) : M B :=
  fun w =>
    match m w with
    | (Ok a, w') => k a w'
    | (Raise e, w') => (Raise e, w')
    end.

(** [try: m  except Exception as e: handler e] *)
Definition try_except {A} (m : M A) (handler : exn -> M A) : M A :=
  fun w =>
    match m w with
    | (Ok a, w') => (Ok a, w')
    | (Raise e, w') => handler e w'
    end.

(** [try: m  finally: cleanup] *)
Definition try_finally {A} (m : M A) (cleanup : M unit) : M A :=
  fun w =>
    match m w with
    | (r, w') =>
        match cleanup w' with
        | (Ok _, w'') => (r, w'')
        | (Raise e, w'') => (Raise e, w'')
        end
    end.

Definition get_world : M World := fun w => (Ok w, w).
Definition modify (f : World -> World) : M unit := fun w => (Ok tt, f w).

Declare Scope io_scope.
Delimit Scope io_scope with io.
Notation "x <- m ;; k" := (bind m (fun x => k))
  (at level 100, m at next level, right associativity) : io_scope.
Notation "m ;;; k" := (bind m (fun _ => k))
  (at level 100, right associativity) : io_scope.
Local Open Scope io_scope.

(** ** Operating-system and library calls *)

Section Primitives.
Context (E : Env).

(** [open(p, 'rb').read()] *)
Definition read_file (p : Path) : M bytes :=
  fun w =>
    match fs w !! p with
    | Some (File data) => (Ok data, w)
    | Some Dir => (Raise IsADirectoryError, w)
    | None => (Raise FileNotFoundError, w)
    end.

(** [p.exists()] *)
Definition path_exists (p : Path) : M bool :=
  fun w => (Ok (bool_decide (is_Some (fs w !! p))), w).

(** [p.is_file()] *)
Definition is_file (f : gmap Path node) (p : Path) : bool :=
  match f !! p with Some (File _) => true | _ => false end.

(** [p.is_dir()] *)
Definition is_dir (f : gmap Path node) (p : Path) : bool :=
  match f !! p with Some Dir => true | _ => false end.

(** [os.remove(p)], [os.unlink(p)] *)
Definition os_remove (p : Path) : M unit :=
  fun w =>
    match fs w !! p with
    | Some (File _) => (Ok tt, set_fs (delete p (fs w)) w)
    | Some Dir => (Raise IsADirectoryError, w)
    | None => (Raise FileNotFoundError, w)
    end.

(** [os.path.getsize(p)] of a regular file *)
Definition getsize (p : Path) : M Z :=
  data <- read_file p ;; ret (Z.of_nat (length data)).

(** Whether the folder that is to hold [p] is there (a one-component
    path lives in the current directory). *)
Definition parent_is_dir (f : gmap Path node) (p : Path) : bool :=
  match PyPath.parent p with
  | [] => true
  | q => is_dir f q
  end.

(** [shutil.move(src, dst)] of a regular file: a rename onto [dst] (an
    existing regular file there is replaced), or into [dst] when that
    is a directory. *)
Definition shutil_move (src dst : Path) : M unit :=
  fun w =>
    match fs w !! src with
    | None => (Raise FileNotFoundError, w)
    | Some Dir => (Raise IsADirectoryError, w)
    | Some (File data) =>
        match fs w !! dst with
        | Some Dir =>
            let real_dst := dst </> PyPath.name src in
            if bool_decide (is_Some (fs w !! real_dst))
            then (Raise ShutilError, w)
            else (Ok tt, set_fs (<[real_dst := File data]> (delete src (fs w))) w)
        | _ =>
            if parent_is_dir (fs w) dst
            then (Ok tt, set_fs (<[dst := File data]> (delete src (fs w))) w)
            else (Raise FileNotFoundError, w)
        end
    end.

(** [p.mkdir(parents=True, exist_ok=True)]: nothing is created when a
    regular file is in the way. *)
Definition mkdir_parents (p : Path) : M unit :=
  fun w =>
    if existsb (is_file (fs w)) (PyPath.ancestors_and_self (PyPath.parent p))
    then (Raise NotADirectoryError, w)
    else if is_file (fs w) p
    then (Raise FileExistsError, w)
    else (Ok tt, set_fs (foldr (fun q f => <[q := Dir]> f) (fs w)
                               (PyPath.ancestors_and_self p)) w).

(** [p.relative_to(root)] *)
Definition relative_to (p root : Path) : M Path :=
  if bool_decide (root `prefix_of` p) then ret (drop (length root) p)
  else raise ValueError.

(** [time.sleep] *)
Definition sleep (n : nap) : M unit :=
  modify (fun w => set_sleeps (sleeps w ++ [n]) w).

(** [random.randint(a, b)]: some integer of [[a, b]]; [ValueError] when
    the range is empty. *)
Definition randint (a b : Z) : M Z :=
  fun w =>
    if b <? a then (Raise ValueError, w)
    else (Ok (a + randbits E (rng w) mod (b - a + 1)), set_rng (S (rng w)) w).

(** [tempfile.NamedTemporaryFile(delete=False, suffix='.mp3')]: an empty
    file under a new name; its name is returned. *)
Definition named_temporary_file : M Path :=
  fun w =>
    let name := mktemp E (fs w) in
    (Ok name, set_fs (<[name := File []]> (fs w)) w).

(** [AudioSegment.from_file(str(p))], of which the program uses the
    length only; the bytes are kept for the encoder. *)
Definition audio_from_file (p : Path) : M (bytes * Z) :=
  data <- read_file p ;;
  match from_file E data with
  | Some ms => ret (data, Z.of_N ms)
  | None => raise CouldntDecodeError
  end.

(** [clip.export(name, format="mp3", bitrate="128k")] *)
Definition clip_export (audio : bytes) (clip : Clip) (name : Path) : M unit :=
  match export E audio clip with
  | Some encoded => modify (fun w => set_fs (<[name := File encoded]> (fs w)) w)
  | None => raise CouldntEncodeError
  end.

(** [requests.post('https://api.audd.io/', data=data, files=files,
    timeout=30)] *)
Definition requests_post (upload : bytes) : M (Z * option ApiBody) :=
  fun w =>
    match post E (http w) upload with
    | HttpRaises e => (Raise e, set_http (S (http w)) w)
    | HttpResponse code body => (Ok (code, body), set_http (S (http w)) w)
    end.

(** [response.json()] *)
Definition response_json (body : option ApiBody) : M ApiBody :=
  match body with
  | Some b => ret b
  | None => raise JSONDecodeError
  end.

End Primitives.

(** ** [AudioOrganizer] *)

(** Leaving a [for] body: [return a], or on to the next iteration. *)
Inductive loop_ctl (A : Type) :=
| Return (a : A)
| Continue.
Arguments Return {A} a.
Arguments Continue {A}.

(** [retries: int = 3] *)
Definition default_retries : Z := 3.

(** The truth value of a string that may be missing. *)
Definition truthy (s : option pystr) : bool :=
  match s with
  | Some (_ :: _) => true
  | _ => false
  end.

(** The truth value of the [result] dict: it has at least one key. *)
Definition song_truthy (r : SongInfo) : bool :=
  bool_decide (is_Some (artist r)) || bool_decide (is_Some (title r))
  || bool_decide (is_Some (album r)) || bool_decide (is_Some (apple_music r))
  || bool_decide (is_Some (spotify r)) || bool_decide (0 < other_keys r)%nat.

Definition supported_formats : list pystr :=
  [py ".mp3"; py ".wav"; py ".flac"; py ".m4a"; py ".aac"; py ".ogg"; py ".wma"].

(** [for chunk in iter(lambda: f.read(4096), b"")]: the chunks read from
    a file holding [data]; [fuel] bounds the number of reads and
    [length data] is always enough. *)
Definition chunk_size : nat := 4096.

Fixpoint read_chunks (fuel : nat) (data : bytes) : list bytes :=
  match fuel with
  | O => []
  | S fuel' =>
      match data with
      | [] => []
      | _ => take chunk_size data :: read_chunks fuel' (drop chunk_size data)
      end
  end.

Definition incr_success (s : ProcessingStats) : ProcessingStats :=
  {| total := total s; success := success s + 1; failed := failed s;
     skipped := skipped s; duplicates := duplicates s |}.

Definition incr_failed (s : ProcessingStats) : ProcessingStats :=
  {| total := total s; success := success s; failed := failed s + 1;
     skipped := skipped s; duplicates := duplicates s |}.

Section AudioOrganizer.
Context (E : Env) (self : Config).

(** [__init__]: the fields are reset and the output folder is created
    (unless dry run). *)
Definition init : M unit :=
  (if dry_run self then ret tt else mkdir_parents (output_folder self)) ;;;
  modify (fun w => set_failed_files [] (set_processed_files []
                     (set_file_hashes ∅ w))).

(** [get_file_hash]: the md5 object is fed chunk by chunk; its state is
    the bytes fed so far. *)
Definition get_file_hash (file_path : Path) : M pystr :=
  data <- read_file file_path ;;
  let hash_md5 := fold_left (fun fed chunk => fed ++ chunk)
                            (read_chunks (length data) data) [] in
  ret (md5 E hash_md5).

(** [input_folder.rglob('*')]: every path strictly below the folder. *)
Definition rglob (f : gmap Path node) (root : Path) : list Path :=
  scan_order E
    (List.filter (fun p => bool_decide (root `prefix_of` p ∧ p ≠ root))
                 (fst <$> map_to_list f)).

Definition get_audio_files : M (list Path) :=
  w <- get_world ;;
  ret (List.filter
         (fun file_path =>
            is_file (fs w) file_path
            && bool_decide (PyStr.lower (PyPath.suffix file_path) ∈ supported_formats))
         (rglob (fs w) (input_folder self))).

Definition validate_audio_file (file_path : Path) : M bool :=
  try_except
    (audio <- audio_from_file E file_path ;;
     if snd audio <? 10000 then ret false else ret true)
    (fun _ => ret false).

(** Lines 121-140 of [create_random_clip]: which part of the audio is
    taken.  [int(total_duration * 0.15)] and [int(total_duration * 0.85)]
    are computed on doubles in the source; for a length below 2^48 ms the
    rounded products lie within a quarter of the exact ones, and the
    exact ones are multiples of 1/20, so the truncations are the integer
    quotients written here. *)
Definition select_clip (total_duration duration : Z) : M Clip :=
  if total_duration <? duration * 1000 then ret Whole
  else
    let safe_start := total_duration * 15 / 100 in
    let safe_end := total_duration * 85 / 100 in
    clip_start <-
      (if safe_end - safe_start <? duration * 1000 then
         let middle := total_duration / 2 in
         ret (Z.max 0 (middle - duration * 500))
       else
         let max_start := safe_end - duration * 1000 in
         randint E safe_start max_start) ;;
    let clip_end := clip_start + duration * 1000 in
    ret (Slice clip_start clip_end).

Definition create_random_clip (audio_path : Path) (duration : Z)
  : M (option Path) :=
  try_except
    (audio <- audio_from_file E audio_path ;;
     clip <- select_clip (snd audio) duration ;;
     temp_file <- named_temporary_file E ;;
     clip_export E (fst audio) clip temp_file ;;;
     ret (Some temp_file))
    (fun _ => ret None).

(** One iteration of the [for attempt in range(retries)] loop of
    [identify_song]. *)
Definition identify_attempt (clip_path : Path) (attempt retries : Z)
  : M (loop_ctl (option SongInfo)) :=
  try_except
    (audio_file <- read_file clip_path ;;
     response <- requests_post E audio_file ;;
     let status_code := fst response in
     if status_code =? 200 then
       result <- response_json (snd response) ;;
       if bool_decide (json_status result = py "success")
          && match json_result result with
             | Some r => song_truthy r
             | None => false
             end
       then ret (Return (json_result result))
       else ret (Return None)
     else if status_code =? 901 then
       let wait_time := 2 ^ attempt in
       sleep (Backoff wait_time) ;;;
       ret Continue
     else if status_code =? 900 then ret (Return None)
     else if status_code =? 700 then ret (Return None)
     else if status_code =? 500 then ret (Return None)
     else if status_code =? 400 then ret (Return None)
     else if status_code =? 300 then ret (Return None)
     else ret (Return None))
    (fun e =>
       match e with
       | Timeout =>
           if attempt <? retries - 1 then
             sleep (Backoff (2 ^ attempt)) ;;;
             ret Continue
           else ret Continue
       | _ => ret (Return None)
       end).

(** The loop itself: [todo] iterations are left, the next one is number
    [attempt]. *)
Fixpoint identify_loop (clip_path : Path) (retries : Z) (todo : nat)
         (attempt : Z) : M (option SongInfo) :=
  match todo with
  | O => ret None
  | S todo' =>
      ctl <- identify_attempt clip_path attempt retries ;;
      match ctl with
      | Return r => ret r
      | Continue => identify_loop clip_path retries todo' (attempt + 1)
      end
  end.

Definition identify_song (clip_path : Path) (retries : Z)
  : M (option SongInfo) :=
  identify_loop clip_path retries (Z.to_nat retries) 0.

Definition create_folder_structure (song_info : SongInfo)
           (original_file : Path) : M Path :=
  let artist := default (py "Unknown Artist") (artist song_info) in
  let title := default (py "Unknown Title") (title song_info) in
  let apple_album :=
    match apple_music song_info with
    | Some am => albumName am
    | None => None
    end in
  let spotify_name :=
    match spotify song_info with
    | Some sp =>
        match spotify_album sp with
        | Some al => album_name al
        | None => None
        end
    | None => None
    end in
  let album :=
    if truthy apple_album then apple_album
    else if truthy spotify_name then spotify_name
    else if truthy (album song_info) then album song_info
    else None in
  let artist := sanitize_filename artist in
  let title := sanitize_filename title in
  let artist_folder := output_folder self </> artist in
  let target_folder :=
    if truthy album && truthy (PyStr.strip_space <$> album)
    then artist_folder </> sanitize_filename (default [] album)
    else artist_folder in
  (if dry_run self then ret tt else mkdir_parents target_folder) ;;;
  let file_extension := PyPath.suffix original_file in
  ret (target_folder </> (title ++ file_extension)).

Definition move_file (source target : Path) : M bool :=
  if dry_run self then
    relative_to target (output_folder self) ;;;
    ret true
  else
    try_except
      (target_exists <- path_exists target ;;
       if target_exists : bool then
         source_hash <- get_file_hash source ;;
         target_hash <- get_file_hash target ;;
         if bool_decide (source_hash = target_hash) then
           os_remove source ;;;
           ret true
         else
           source_size <- getsize source ;;
           target_size <- getsize target ;;
           (if target_size <? source_size then
              os_remove target ;;;
              shutil_move source target
            else os_remove source) ;;;
           ret true
       else
         shutil_move source target ;;;
         relative_to target (output_folder self) ;;;
         ret true)
      (fun _ => ret false).

Definition append_failed (file_path : Path) : M unit :=
  modify (fun w => set_failed_files (failed_files w ++ [file_path]) w).

Definition append_processed (e : Entry) : M unit :=
  modify (fun w => set_processed_files (processed_files w ++ [e]) w).

Definition process_file (file_path : Path) : M bool :=
  valid <- validate_audio_file file_path ;;
  if negb valid then
    append_failed file_path ;;;
    ret false
  else
    file_hash <- get_file_hash file_path ;;
    w <- get_world ;;
    if bool_decide (is_Some (file_hashes w !! file_hash)) then
      (if dry_run self then ret tt else os_remove file_path) ;;;
      ret true
    else
      modify (fun w => set_file_hashes (<[file_hash := file_path]> (file_hashes w)) w) ;;;
      clip_path <- create_random_clip file_path (clip_duration self) ;;
      match clip_path with
      | None =>
          append_failed file_path ;;;
          ret false
      | Some clip_path =>
          try_finally
            (song_info <- identify_song clip_path default_retries ;;
             match song_info with
             | None =>
                 append_failed file_path ;;;
                 ret false
             | Some song_info =>
                 target_path <- create_folder_structure song_info file_path ;;
                 success <- move_file file_path target_path ;;
                 (if success : bool then
                    append_processed
                      {| original_path := file_path;
                         target_path := target_path;
                         entry_artist := default (py "Unknown") (artist song_info);
                         entry_title := default (py "Unknown") (title song_info);
                         entry_album := default [] (album song_info) |}
                  else ret tt) ;;;
                 ret success
             end)
            (try_except (os_remove clip_path) (fun _ => ret tt))
      end.

Definition results_file : Path :=
  output_folder self </> py "organization_results.json".

Definition results_of (stats : ProcessingStats) (w : World) : Results :=
  {| results_stats := stats;
     results_processed_files := processed_files w;
     results_failed_files := failed_files w |}.

(** [save_results]: [open(results_file, 'w')] needs the output folder
    to be there and no directory under the file's name. *)
Definition save_results (stats : ProcessingStats) : M unit :=
  w <- get_world ;;
  let results := results_of stats w in
  if parent_is_dir (fs w) results_file && negb (is_dir (fs w) results_file)
  then modify (fun w => set_fs (<[results_file := File (json_dump E results)]> (fs w)) w)
  else raise (if is_dir (fs w) results_file then IsADirectoryError
              else FileNotFoundError).

(** The [try] statement in the body of the loop of [organize_library]:
    one file is processed and counted. *)
Definition count_file (file_path : Path) (stats : ProcessingStats)
  : M ProcessingStats :=
  try_except
    (success <- process_file file_path ;;
     if success : bool then ret (incr_success stats)
     else ret (incr_failed stats))
    (fun _ => ret (incr_failed stats)).

(** The [for i, file_path in enumerate(audio_files, 1)] loop of
    [organize_library]; [count] is [len(audio_files)]. *)
Fixpoint organize_loop (delay_positive : bool) (count : nat) (i : nat)
         (audio_files : list Path) (stats : ProcessingStats)
  : M ProcessingStats :=
  match audio_files with
  | [] => ret stats
  | file_path :: rest =>
      stats <- count_file file_path stats ;;
      (if bool_decide (i < count)%nat && delay_positive
       then sleep Delay else ret tt) ;;;
      organize_loop delay_positive count (S i) rest stats
  end.

Definition new_stats (n : nat) : ProcessingStats :=
  {| total := Z.of_nat n; success := 0; failed := 0; skipped := 0;
     duplicates := 0 |}.

Definition organize_library (delay_positive : bool) : M ProcessingStats :=
  audio_files <- get_audio_files ;;
  let stats := new_stats (length audio_files) in
  stats <- organize_loop delay_positive (length audio_files) 1 audio_files stats ;;
  save_results stats ;;;
  ret stats.

End AudioOrganizer.


(** * Specification-level notions

    Definitions that follow the words of the specification; the
    properties below compare the program with them. *)

(** The nine [replace] passes of [sanitize_filename] seen as one pass that
    maps every invalid character to an underscore. *)
Definition replace_invalid (name : pystr) : pystr :=
  (fun c => if bool_decide (c ∈ invalid_chars) then underscore else c) <$> name.

(** What is left of [name] after the replacements, the two [re.sub]
    calls and the [strip], before the cut to 100 characters. *)
Definition cleaned (name : pystr) : pystr :=
  PyStr.strip (py ". ")
    (PyStr.re_sub_group lbracket rbracket
       (PyStr.re_sub_group lparen rparen (replace_invalid name))).

Module Identify.

(** The table of the specification, read off one transport outcome. *)

(** Rate limited (status 901) or timed out: the two transient outcomes. *)
Definition transient (o : http_outcome) : bool :=
  match o with
  | HttpResponse 901 _ => true
  | HttpRaises Timeout => true
  | _ => false
  end.

(** A successful answer carrying the payload [info]. *)
Definition success_with (o : http_outcome) (info : SongInfo) : Prop :=
  exists body,
    o = HttpResponse 200 (Some body)
    /\ json_status body = py "success"
    /\ json_result body = Some info
    /\ song_truthy info = true.

(** What a final (not transient) outcome makes [identify_song] return. *)
Definition answer_of (o : http_outcome) : option SongInfo :=
  match o with
  | HttpResponse 200 (Some body) =>
      if bool_decide (json_status body = py "success")
         && match json_result body with
            | Some r => song_truthy r
            | None => false
            end
      then json_result body else None
  | _ => None
  end.

(** The [time.sleep] calls made in attempt number [attempt]. *)
Definition backoff_of (retries : Z) (o : http_outcome) (attempt : Z) : list nap :=
  match o with
  | HttpResponse 901 _ => [Backoff (2 ^ attempt)]
  | HttpRaises Timeout =>
      if attempt <? retries - 1 then [Backoff (2 ^ attempt)] else []
  | _ => []
  end.

(** The sleeps of the attempts [first, first + 1, ..., first + count - 1],
    whose outcomes are [out 0, ..., out (count - 1)]. *)
Fixpoint backoffs (retries : Z) (out : nat -> http_outcome) (first : Z)
         (count : nat) : list nap :=
  match count with
  | O => []
  | S count' =>
      backoff_of retries (out O) first
      ++ backoffs retries (fun j => out (S j)) (first + 1) count'
  end.

End Identify.


(** Album resolution in the words of the specification: the first
    provider's nested album name, then the second provider's, then the flat
    field; the first non-empty one wins. *)
Fixpoint first_nonempty (candidates : list (option pystr)) : option pystr :=
  match candidates with
  | [] => None
  | Some (c :: s) :: _ => Some (c :: s)
  | _ :: rest => first_nonempty rest
  end.

Definition resolved_album (song_info : SongInfo) : option pystr :=
  first_nonempty
    [ match apple_music song_info with
      | Some am => albumName am
      | None => None
      end;
      match spotify song_info with
      | Some sp =>
          match spotify_album sp with
          | Some al => album_name al
          | None => None
          end
      | None => None
      end;
      album song_info ].

(** The folder and the path the specification asks for:
    [outputRoot/artist[/album]/title.<original-extension>], every name
    sanitized. *)
Definition expected_folder (self : Config) (song_info : SongInfo) : Path :=
  let artist := sanitize_filename (default (py "Unknown Artist") (artist song_info)) in
  match resolved_album song_info with
  | Some album =>
      match PyStr.strip_space album with
      | [] => output_folder self </> artist
      | _ => output_folder self </> artist </> sanitize_filename album
      end
  | None => output_folder self </> artist
  end.

Definition expected_target (self : Config) (song_info : SongInfo)
           (original_file : Path) : Path :=
  let title := sanitize_filename (default (py "Unknown Title") (title song_info)) in
  expected_folder self song_info </> (title ++ PyPath.suffix original_file).

(** ** Notions for the pipeline *)

(** The file at [file_path] passes [validate_audio_file]: it is a regular
    file that decodes to at least ten seconds of audio. *)
Definition valid_file (E : Env) (f : gmap Path node) (file_path : Path) : bool :=
  match f !! file_path with
  | Some (File data) =>
      match from_file E data with
      | Some ms => negb (Z.of_N ms <? 10000)
      | None => false
      end
  | _ => false
  end.

(** From [w] to [w'] the fields of the organizer are the same and every
    regular file whose path satisfies [P] is still there with its bytes. *)
Definition keeps (P : Path -> Prop) (w w' : World) : Prop :=
  file_hashes w' = file_hashes w
  /\ failed_files w' = failed_files w
  /\ processed_files w' = processed_files w
  /\ forall p data, P p -> fs w !! p = Some (File data) ->
                    fs w' !! p = Some (File data).

(** From [w] to [w'] no directory appeared. *)
Definition no_new_dir (w w' : World) : Prop :=
  forall p, fs w' !! p = Some Dir -> fs w !! p = Some Dir.

(** A computation that, however it ends, leaves the organizer's fields
    alone and keeps the regular files selected by [P]. *)
Definition preserves {A} (P : Path -> Prop) (m : M A) : Prop :=
  forall w r w', m w = (r, w') -> keeps P w w'.

(** The [try ... finally] statement that ends [process_file], for a clip
    that was created: identify, resolve the path, move, record; and at
    the end delete the clip. *)
Definition identify_and_move (E : Env) (self : Config)
           (file_path clip_path : Path) : M bool :=
  try_finally
    (song_info <- identify_song E clip_path default_retries ;;
     match song_info with
     | None =>
         append_failed file_path ;;;
         ret false
     | Some song_info =>
         target_path <- create_folder_structure self song_info file_path ;;
         success <- move_file E self file_path target_path ;;
         (if success : bool then
            append_processed
              {| original_path := file_path;
                 target_path := target_path;
                 entry_artist := default (py "Unknown") (artist song_info);
                 entry_title := default (py "Unknown") (title song_info);
                 entry_album := default [] (album song_info) |}
          else ret tt) ;;;
         ret success
     end)
    (try_except (os_remove clip_path) (fun _ => ret tt)).

(** * Sample data

    A small library, used where a statement is tried on a concrete run. *)

Module Sample.

Definition in_dir : Path := [py "in"].
Definition out_dir : Path := [py "out"].
Definition file_a : Path := in_dir </> py "a.mp3".
Definition file_b : Path := in_dir </> py "b.mp3".
Definition file_c : Path := in_dir </> py "c.mp3".

Definition tune : bytes := [Byte.x01; Byte.x02; Byte.x03].
Definition noise : bytes := [Byte.x09; Byte.x09].

Definition song : SongInfo :=
  {| artist := Some (py "Abba"); title := Some (py "Song (Live)");
     album := None; apple_music := None; spotify := None; other_keys := 0 |}.

Definition found : http_outcome :=
  HttpResponse 200
    (Some {| json_status := py "success"; json_result := Some song |}).

Definition rate_limited : http_outcome := HttpResponse 901 None.

(** A temporary name below [tmp] that no node of the file system has. *)
Definition tmp_name (f : gmap Path node) : Path :=
  py "tmp" :: fresh (set_map (drop 1) (dom f) : gset Path).

(** An environment: every file decodes to [ms] milliseconds, the
    encoder works or not, the service gives [answers]. *)
Definition env (ms : N) (encoder_works : bool)
           (answers : nat -> http_outcome) : Env :=
  {| md5 := fun data => (fun b => Byte.to_N b) <$> data;
     from_file := fun _ => Some ms;
     export := fun data _ => if encoder_works then Some data else None;
     mktemp := tmp_name;
     randbits := fun n => Z.of_nat n * 7919;
     post := fun n _ => answers n;
     scan_order := fun l => l;
     json_dump := fun _ => [] |}.

Definition config (dry : bool) : Config :=
  {| api_token := py "token"; input_folder := in_dir;
     output_folder := out_dir; dry_run := dry; clip_duration := 10 |}.

Definition world_of (f : gmap Path node) : World :=
  {| fs := f; rng := 0; http := 0; sleeps := []; file_hashes := ∅;
     processed_files := []; failed_files := [] |}.

(** Two byte-identical files in the input folder. *)
Definition twins : World :=
  world_of (<[file_a := File tune]> (<[file_b := File tune]>
              (<[in_dir := Dir]> (<[out_dir := Dir]> ∅)))).

(** A shorter, different file already sits at the target path. *)
Definition taken : Path := out_dir </> py "Song.mp3".

Definition conflict : World :=
  world_of (<[file_a := File tune]> (<[taken := File noise]>
              (<[in_dir := Dir]> (<[out_dir := Dir]> ∅)))).

(** A clip waiting to be identified. *)
Definition clip : Path := [py "tmp"; py "clip.mp3"].

Definition with_clip : World := world_of {[ clip := File tune ]}.

(** The service is rate limited once and answers then. *)
Definition limited_once (n : nat) : http_outcome :=
  match n with
  | O => rate_limited
  | S _ => found
  end.

(** A library organized in place: the input folder is the output
    folder.  [lib_song] and [lib_copy] hold the same bytes. *)
Definition lib : Path := [py "lib"].
Definition lib_song : Path := lib </> py "Abba" </> py "Song.mp3".


Definition in_place_config : Config :=
  {| api_token := py "token"; input_folder := lib; output_folder := lib;
     dry_run := false; clip_duration := 10 |}.


(** The library with one file, which is where it belongs already. *)
Definition organized : World :=
  world_of (<[lib_song := File tune]>
              (<[lib </> py "Abba" := Dir]> (<[lib := Dir]> ∅))).



End Sample.
(** * Properties *)

(** ** Strings and [sanitize_filename] *)

Module SanitizeProps.
Import PyStr.

Lemma replace_fold (chars : pystr) (new : N) (name : pystr) :
  new ∉ chars ->
  fold_left (fun name char => replace char new name) chars name
  = (fun c => if bool_decide (c ∈ chars) then new else c) <$> name.
Proof.
  intros Hnew. revert name.
  induction chars as [|ch chars IH]; intros name; simpl.
  - induction name as [|c name IHname]; simpl; [done|].
    f_equal. exact IHname.
  - rewrite IH by (intros H; apply Hnew; by right).
    unfold replace. rewrite <- list_fmap_compose. apply list_fmap_ext.
    intros _ c _. simpl. case N.eqb_spec; intros Hc.
    + subst c. rewrite (bool_decide_eq_true_2 (ch ∈ ch :: chars)) by left.
      rewrite bool_decide_eq_false_2; [done|]. intros Hin. apply Hnew. by right.
    + rewrite (bool_decide_ext (c ∈ ch :: chars) (c ∈ chars)); [done|].
      rewrite elem_of_cons. split; [intros [?|?]; [congruence|done] | by right].
Qed.

Lemma replace_passes name :
  fold_left (fun name char => replace char underscore name) invalid_chars name
  = replace_invalid name.
Proof.
  apply replace_fold. unfold underscore, invalid_chars.
  rewrite !elem_of_cons, elem_of_nil. intros H; decompose [or] H; (discriminate || done).
Qed.

Lemma replace_invalid_clean name c :
  c ∈ invalid_chars -> c ∉ replace_invalid name.
Proof.
  intros Hc Hin. unfold replace_invalid in Hin.
  apply list_elem_of_fmap in Hin as (x & -> & _).
  case_bool_decide as Hx.
  - revert Hc. unfold invalid_chars, underscore.
    rewrite !elem_of_cons, elem_of_nil. intuition discriminate.
  - contradiction.
Qed.

(** [re.sub] only deletes, and leaves no opening delimiter with a
    closing one behind it. *)
Lemma re_sub_group_facts op cl name :
  (re_sub_group op cl name `sublist_of` name
   ∧ ¬ [op; cl] `sublist_of` re_sub_group op cl name)
  ∧ match match_tail op cl name with
    | Some out => out `sublist_of` name ∧ ¬ [op; cl] `sublist_of` out
    | None => cl ∉ name
    end.
Proof.
  induction name as [|c rest [[IHsub IHno] IHtail]]; simpl.
  - repeat split; [constructor | | apply not_elem_of_nil].
    intros H. apply sublist_nil_r in H. discriminate.
  - split.
    + case N.eqb_spec; intros Hc.
      * subst c. destruct (match_tail op cl rest) as [out|].
        -- destruct IHtail as [Hs Hn]. split; [|exact Hn].
           by apply sublist_cons.
        -- split; [by apply sublist_skip|].
           intros H. apply sublist_cons_r in H as [H | (l' & Heq & H)].
           ++ by apply IHno.
           ++ injection Heq as <-. apply IHtail.
              eapply sublist_subseteq; [exact IHsub|].
              eapply sublist_subseteq; [exact H|]. apply list_elem_of_here.
      * split; [by apply sublist_skip|].
        intros H. apply sublist_cons_r in H as [H | (l' & Heq & H)].
        -- by apply IHno.
        -- injection Heq as Hop _. congruence.
    + case N.eqb_spec; intros Hc.
      * split; [by apply sublist_cons | exact IHno].
      * destruct (match_tail op cl rest) as [out|].
        -- destruct IHtail as [Hs Hn]. split; [by apply sublist_cons | exact Hn].
        -- rewrite elem_of_cons. intros [?|?]; [congruence | by apply IHtail].
Qed.

Lemma re_sub_group_sublist op cl name :
  re_sub_group op cl name `sublist_of` name.
Proof. apply re_sub_group_facts. Qed.








Lemma lstrip_suffix chars name : lstrip chars name `suffix_of` name.
Proof.
  induction name as [|c rest IH]; simpl; [done|].
  case_bool_decide; [by apply suffix_cons_r | done].
Qed.

Lemma lstrip_head chars name c :
  head (lstrip chars name) = Some c -> c ∉ chars.
Proof.
  induction name as [|x rest IH]; simpl; [discriminate|].
  case_bool_decide as Hx; [exact IH|]. simpl. congruence.
Qed.

Lemma rstrip_prefix chars name : rstrip chars name `prefix_of` name.
Proof.
  unfold rstrip. apply prefix_suffix_reverse.
  rewrite reverse_involutive. apply lstrip_suffix.
Qed.

Lemma rstrip_last chars name c :
  last (rstrip chars name) = Some c -> c ∉ chars.
Proof.
  unfold rstrip. rewrite last_reverse. apply lstrip_head.
Qed.

Lemma prefix_is_sublist (l k : pystr) : l `prefix_of` k -> l `sublist_of` k.
Proof. intros [t ->]. by apply sublist_inserts_r. Qed.

Lemma suffix_is_sublist (l k : pystr) : l `suffix_of` k -> l `sublist_of` k.
Proof. intros [t ->]. by apply sublist_inserts_l. Qed.

Lemma strip_sublist chars name : strip chars name `sublist_of` name.
Proof.
  unfold strip. etransitivity.
  - apply prefix_is_sublist, rstrip_prefix.
  - apply suffix_is_sublist, lstrip_suffix.
Qed.

Lemma prefix_head (l k : pystr) c :
  l `prefix_of` k -> l ≠ [] -> head k = Some c -> head l = Some c.
Proof.
  intros [t ->] Hl. destruct l; [done|]. simpl. auto.
Qed.

Lemma strip_head chars name c :
  head (strip chars name) = Some c -> c ∉ chars.
Proof.
  unfold strip. intros H.
  destruct (rstrip_prefix chars (lstrip chars name)) as [t Ht].
  apply (lstrip_head chars name). rewrite Ht.
  destruct (rstrip chars (lstrip chars name)); [discriminate | exact H].
Qed.

End SanitizeProps.

Module SanitizeSpec.
Import PyStr SanitizeProps.

Lemma sanitize_filename_unfold name :
  sanitize_filename name
  = match take 100 (cleaned name) with
    | [] => py "Unknown"
    | c :: rest => c :: rest
    end.
Proof.
  unfold sanitize_filename, cleaned. rewrite replace_passes.
  set (s := strip _ _). cbv zeta.
  case_bool_decide as Hlen.
  - by destruct (take 100 s).
  - rewrite take_ge by lia. by destruct s.
Qed.

Lemma unknown_facts :
  Forall (fun c => c ∉ py "Unknown") invalid_chars
  ∧ ¬ [lparen; rparen] `sublist_of` py "Unknown"
  ∧ ¬ [lbracket; rbracket] `sublist_of` py "Unknown".
Proof.
  split; [|split].
  - apply (bool_decide_unpack _). vm_compute. exact I.
  - intros H. apply sublist_subseteq in H.
    specialize (H lparen (list_elem_of_here _ _)). revert H.
    apply (bool_decide_unpack _). vm_compute. exact I.
  - intros H. apply sublist_subseteq in H.
    specialize (H lbracket (list_elem_of_here _ _)). revert H.
    apply (bool_decide_unpack _). vm_compute. exact I.
Qed.

Lemma cut_sublist name : take 100 (cleaned name) `sublist_of` replace_invalid name.
Proof.
  unfold cleaned.
  etransitivity; [apply sublist_take|].
  etransitivity; [apply strip_sublist|].
  etransitivity; apply re_sub_group_sublist.
Qed.

End SanitizeSpec.



(** ** The clip window of [create_random_clip] *)

Lemma randint_in_range E a b w :
  a <= b ->
  exists r, randint E a b w = (Ok r, set_rng (S (rng w)) w) /\ a <= r <= b.
Proof.
  intros Hab. unfold randint.
  destruct (Z.ltb_spec b a) as [Hlt|_]; [lia|].
  eexists; split; [reflexivity|].
  pose proof (Z.mod_pos_bound (randbits E (rng w)) (b - a + 1)). lia.
Qed.

Lemma safe_zone_bounds total :
  0 <= total ->
  0 <= total * 15 / 100 /\ total * 15 / 100 <= total * 85 / 100
  /\ total * 85 / 100 <= total.
Proof.
  intros Htot. repeat split.
  - apply Z.div_pos; lia.
  - apply Z.div_le_mono; lia.
  - apply Z.div_le_upper_bound; lia.
Qed.

(** C7: for a track of [total] milliseconds and a clip of [duration]
    seconds, that is [duration * 1000] milliseconds: a shorter track is
    taken whole; otherwise, when the safe zone (the track without its first
    and last 15%) has room for the clip, then whatever the random draw the
    clip starts in [[safe_start, safe_end - clip]] and is exactly the clip
    duration long, so it lies inside the safe zone; and when the safe zone
    is too narrow the clip is centred on the midpoint of the track.  For
    100000 ms and 10 s the window lies within [[15000, 85000]] and is
    10000 ms long. *)
Theorem select_clip_window (E : Env) (total duration : Z) (w : World) :
  0 <= total ->
  let clip_ms := duration * 1000 in
  let safe_start := total * 15 / 100 in
  let safe_end := total * 85 / 100 in
  exists clip w',
    select_clip E total duration w = (Ok clip, w')
    /\ (total < clip_ms -> clip = Whole)
    /\ (clip_ms <= total -> clip_ms <= safe_end - safe_start ->
        exists start,
          clip = Slice start (start + clip_ms)
          /\ safe_start <= start <= safe_end - clip_ms
          /\ 0 <= safe_start /\ start + clip_ms <= safe_end <= total)
    /\ (clip_ms <= total -> safe_end - safe_start < clip_ms ->
        clip = Slice (total / 2 - duration * 500) (total / 2 + duration * 500)
        /\ 0 <= total / 2 - duration * 500
        /\ total / 2 + duration * 500 <= total)
    /\ (total = 100000 -> duration = 10 ->
        exists start,
          clip = Slice start (start + 10000)
          /\ 15000 <= start /\ start + 10000 <= 85000).
Proof.
  intros Htot clip_ms safe_start safe_end.
  destruct (safe_zone_bounds total Htot) as (Hs0 & Hse & Het).
  fold safe_start safe_end in Hs0, Hse, Het.
  unfold select_clip. fold clip_ms safe_start safe_end.
  destruct (Z.ltb_spec total clip_ms) as [Hshort|Hlong].
  { exists Whole, w. unfold ret. split; [reflexivity|].
    split; [done|]. split; [lia|]. split; [lia|].
    intros -> ->. unfold clip_ms in Hshort. lia. }
  destruct (Z.ltb_spec (safe_end - safe_start) clip_ms) as [Hnarrow|Hroom].
  - assert (Hmid : 0 <= total / 2 - duration * 500
                   /\ total / 2 + duration * 500 <= total).
    { unfold clip_ms in Hlong.
      pose proof (Z.div_mod total 2 ltac:(lia)).
      pose proof (Z.mod_pos_bound total 2 ltac:(lia)). lia. }
    eexists _, w. unfold bind, ret. split; [reflexivity|].
    rewrite Z.max_r by lia.
    split; [lia|]. split; [lia|].
    split.
    { intros _ _. split; [|exact Hmid]. f_equal. unfold clip_ms. lia. }
    intros -> ->. exfalso. unfold clip_ms, safe_end, safe_start in Hnarrow.
    vm_compute in Hnarrow. discriminate.
  - destruct (randint_in_range E safe_start (safe_end - clip_ms) w ltac:(lia))
      as (start & Hrand & Hrange).
    exists (Slice start (start + clip_ms)), (set_rng (S (rng w)) w).
    unfold bind, ret. rewrite Hrand.
    split; [reflexivity|]. split; [lia|].
    split.
    { intros _ _. exists start. repeat split; lia. }
    split; [lia|].
    intros -> ->. exists start. split; [reflexivity|].
    unfold clip_ms, safe_end, safe_start in Hrange.
    change (100000 * 15 / 100) with 15000 in Hrange.
    change (100000 * 85 / 100 - 10 * 1000) with 75000 in Hrange. lia.
Qed.

Lemma select_clip_window_witness :
  exists clip w',
    select_clip
      {| md5 := fun _ => []; from_file := fun _ => None;
         export := fun _ _ => None; mktemp := fun _ => [];
         randbits := fun _ => 4711; post := fun _ _ => HttpRaises Timeout;
         scan_order := fun l => l; json_dump := fun _ => [] |}
      100000 10
      {| fs := ∅; rng := 0; http := 0; sleeps := []; file_hashes := ∅;
         processed_files := []; failed_files := [] |} = (Ok clip, w')
    /\ exists start, clip = Slice start (start + 10000)
                     /\ 15000 <= start /\ start + 10000 <= 85000.
Proof.
  destruct (select_clip_window
              {| md5 := fun _ => []; from_file := fun _ => None;
                 export := fun _ _ => None; mktemp := fun _ => [];
                 randbits := fun _ => 4711; post := fun _ _ => HttpRaises Timeout;
                 scan_order := fun l => l; json_dump := fun _ => [] |}
              100000 10
              {| fs := ∅; rng := 0; http := 0; sleeps := []; file_hashes := ∅;
                 processed_files := []; failed_files := [] |}
              ltac:(lia))
    as (clip & w' & Hrun & _ & _ & _ & Hex).
  exists clip, w'. split; [exact Hrun|]. apply Hex; reflexivity.
Defined.

(** ** [identify_song] *)

Module IdentifyFacts.
Import Identify.

Lemma answer_of_success o info :
  answer_of o = Some info <-> success_with o info.
Proof.
  unfold success_with. split.
  - destruct o as [e|code [body|]]; simpl; try discriminate.
    + destruct code as [|p|p]; try discriminate.
      repeat (destruct p as [p|p|]; try discriminate).
      destruct (bool_decide_reflect (json_status body = py "success")) as [Hs|];
        [|discriminate]. simpl.
      destruct (json_result body) as [r|] eqn:Hr; [|discriminate].
      destruct (song_truthy r) eqn:Ht; [|discriminate].
      intros [= <-]. by exists body.
    + destruct code as [|p|p]; try discriminate.
      repeat (destruct p as [p|p|]; try discriminate).
  - intros (body & -> & Hs & Hr & Ht). simpl.
    rewrite bool_decide_eq_true_2 by done. rewrite Hr, Ht. reflexivity.
Qed.

Lemma success_not_transient o info : success_with o info -> transient o = false.
Proof. intros (body & -> & _). reflexivity. Qed.

End IdentifyFacts.

Section IdentifyRuns.
Context (E : Env).
Import Identify.

Lemma transient_other code body :
  code <> 901 -> transient (HttpResponse code body) = false.
Proof.
  intros Hc. destruct code as [|p|p]; try reflexivity.
  repeat (destruct p as [p|p|]; try reflexivity). congruence.
Qed.

Lemma answer_of_other code body :
  code <> 200 -> answer_of (HttpResponse code body) = None.
Proof.
  intros Hc. destruct code as [|p|p]; try reflexivity.
  repeat (destruct p as [p|p|]; try reflexivity). congruence.
Qed.

Lemma backoff_of_other retries code body attempt :
  code <> 901 -> backoff_of retries (HttpResponse code body) attempt = [].
Proof.
  intros Hc. destruct code as [|p|p]; try reflexivity.
  repeat (destruct p as [p|p|]; try reflexivity). congruence.
Qed.

(** One attempt with the clip in place: one request, the sleeps of the
    table, and either the final answer or the next iteration. *)
Lemma identify_attempt_run clip data attempt retries w :
  fs w !! clip = Some (File data) ->
  identify_attempt E clip attempt retries w
  = (Ok (if transient (post E (http w) data) then Continue
         else Return (answer_of (post E (http w) data))),
     set_sleeps (sleeps w ++ backoff_of retries (post E (http w) data) attempt)
                (set_http (S (http w)) w)).
Proof.
  intros Hclip.
  unfold identify_attempt, try_except, bind, read_file, requests_post.
  rewrite Hclip.
  destruct (post E (http w) data) as [e|code body].
  - destruct e; simpl; try (rewrite app_nil_r; reflexivity).
    destruct (attempt <? retries - 1); simpl.
    + reflexivity.
    + rewrite app_nil_r. reflexivity.
  - cbn [fst snd].
    destruct (Z.eqb_spec code 200) as [->|H200].
    { destruct body as [body|]; simpl.
      - rewrite app_nil_r.
        destruct (bool_decide (json_status body = py "success")
                  && match json_result body with
                     | Some r => song_truthy r
                     | None => false
                     end); reflexivity.
      - rewrite app_nil_r. reflexivity. }
    destruct (Z.eqb_spec code 901) as [->|H901].
    { reflexivity. }
    rewrite (transient_other _ _ H901), (answer_of_other _ _ H200),
      (backoff_of_other _ _ _ _ H901), app_nil_r.
    repeat (destruct (_ =? _)); reflexivity.
Qed.

(** Without the clip the first attempt ends the call. *)
Lemma identify_attempt_no_clip clip attempt retries w :
  (forall data, fs w !! clip <> Some (File data)) ->
  identify_attempt E clip attempt retries w = (Ok (Return None), w).
Proof.
  intros Hclip.
  unfold identify_attempt, try_except, bind, read_file.
  destruct (fs w !! clip) as [[data|]|] eqn:Hl; try reflexivity.
  by destruct (Hclip data).
Qed.

Lemma backoffs_ext retries out out' first count :
  (forall j, out j = out' j) ->
  backoffs retries out first count = backoffs retries out' first count.
Proof.
  revert out out' first.
  induction count as [|count IH]; intros out out' first Hext; simpl; [done|].
  rewrite Hext. f_equal. apply IH. intros j. apply Hext.
Qed.

(** The loop, from attempt number [first] with [todo] iterations left. *)
Lemma identify_loop_run clip data retries todo :
  forall first w,
    fs w !! clip = Some (File data) ->
    let out := fun k => post E (http w + k)%nat data in
    exists r w',
      identify_loop E clip retries todo first w = (Ok r, w')
      /\ (fs w' = fs w /\ file_hashes w' = file_hashes w
          /\ processed_files w' = processed_files w
          /\ failed_files w' = failed_files w /\ rng w' = rng w)
      /\ (forall k, (k < todo)%nat ->
            (forall j, (j < k)%nat -> transient (out j) = true) ->
            transient (out k) = false ->
            r = answer_of (out k)
            /\ http w' = (http w + S k)%nat
            /\ sleeps w' = sleeps w ++ backoffs retries out first (S k))
      /\ ((forall j, (j < todo)%nat -> transient (out j) = true) ->
            r = None
            /\ http w' = (http w + todo)%nat
            /\ sleeps w' = sleeps w ++ backoffs retries out first todo).
Proof.
  induction todo as [|todo IH]; intros first w Hclip out.
  - exists None, w. simpl. unfold ret.
    split; [reflexivity|]. split; [done|]. split; [intros; lia|].
    intros _. rewrite app_nil_r. split; [done|]. split; [lia|done].
  - simpl. unfold bind.
    rewrite (identify_attempt_run clip data first retries w Hclip).
    replace (post E (http w) data) with (out O)
      by (unfold out; f_equal; lia).
    set (w1 := set_sleeps _ _).
    assert (Hout : forall j, post E (http w1 + j)%nat data = out (S j)).
    { intros j. unfold out, w1. simpl. f_equal. lia. }
    destruct (transient (out O)) eqn:Ht0.
    + destruct (IH (first + 1) w1 Hclip) as
        (r & w' & Hrun & Hframe & Hstop & Hall).
      exists r, w'. rewrite Hrun.
      split; [reflexivity|]. split; [exact Hframe|]. split.
      * intros k Hk Hbefore Hfinal.
        destruct k as [|k]; [congruence|].
        destruct (Hstop k ltac:(lia)) as (Hr & Hh & Hs).
        -- intros j Hj. rewrite Hout. apply Hbefore. lia.
        -- by rewrite Hout.
        -- rewrite Hout in Hr. split; [exact Hr|].
           split; [rewrite Hh; unfold w1; simpl; lia|].
           rewrite Hs. unfold w1. simpl sleeps. rewrite <- app_assoc.
           f_equal. change (backoffs retries out first (S (S k))) with
             (backoff_of retries (out O) first
              ++ backoffs retries (fun j => out (S j)) (first + 1) (S k)).
           f_equal. apply backoffs_ext. exact Hout.
      * intros Htrans.
        destruct Hall as (Hr & Hh & Hs).
        { intros j Hj. rewrite Hout. apply Htrans. lia. }
        split; [exact Hr|].
        split; [rewrite Hh; unfold w1; simpl; lia|].
        rewrite Hs. unfold w1. simpl sleeps. rewrite <- app_assoc.
        f_equal. simpl backoffs. f_equal. apply backoffs_ext. exact Hout.
    + exists (answer_of (out O)), w1. unfold ret.
      split; [reflexivity|]. split; [done|]. split.
      * intros k Hk Hbefore Hfinal.
        destruct k as [|k].
        -- split; [done|]. split; [unfold w1; simpl; lia|].
           unfold w1. simpl. by rewrite app_nil_r.
        -- specialize (Hbefore O ltac:(lia)). congruence.
      * intros Htrans. specialize (Htrans O ltac:(lia)). congruence.
Qed.


(** Among the first [n] outcomes either all are transient or there is a
    first one that is not. *)
Lemma first_final (out : nat -> http_outcome) (n : nat) :
  (forall j, (j < n)%nat -> transient (out j) = true)
  \/ exists k, (k < n)%nat /\ transient (out k) = false
               /\ forall j, (j < k)%nat -> transient (out j) = true.
Proof.
  induction n as [|n [Hall|(k & Hk & Hfin & Hbefore)]].
  - left. intros j Hj. lia.
  - destruct (transient (out n)) eqn:Hn.
    + left. intros j Hj. destruct (decide (j = n)) as [->|]; [done|].
      apply Hall. lia.
    + right. exists n. split; [lia|]. split; [exact Hn|].
      intros j Hj. apply Hall. exact Hj.
  - right. exists k. split; [lia|]. split; [exact Hfin | exact Hbefore].
Qed.

Lemma backoff_of_cases retries o attempt :
  backoff_of retries o attempt = []
  \/ backoff_of retries o attempt = [Backoff (2 ^ attempt)].
Proof.
  destruct o as [e|code body].
  - destruct e; simpl; auto. destruct (attempt <? retries - 1); auto.
  - destruct (decide (code = 901)) as [->|Hc]; [right; reflexivity|].
    left. by apply backoff_of_other.
Qed.

Lemma backoffs_powers retries out first count :
  Forall (fun n => exists j, first <= j < first + Z.of_nat count
                             /\ n = Backoff (2 ^ j))
         (backoffs retries out first count).
Proof.
  revert out first.
  induction count as [|count IH]; intros out first; simpl; [constructor|].
  apply Forall_app. split.
  - destruct (backoff_of_cases retries (out O) first) as [->| ->];
      [constructor|].
    constructor; [|constructor]. exists first. split; [lia|done].
  - eapply Forall_impl; [apply IH|]. simpl.
    intros n (j & Hj & ->). exists j. split; [lia|done].
Qed.

End IdentifyRuns.

(** C3: [identify_song] never raises.  Whatever the clip path, the number
    of retries and the behaviour of the transport, it returns; it returns
    the result record exactly when some attempt within the bound got a
    successful answer with a result payload, all attempts before it having
    been rate limited or timed out; on every other path (a missing clip,
    any other status, a success without result, an undecodable body, any
    other exception, retries used up) it returns [None]. *)
Theorem identify_song_total (E : Env) (clip_path : Path) (retries : Z)
        (w : World) :
  exists r w',
    identify_song E clip_path retries w = (Ok r, w')
    /\ forall info,
         r = Some info <->
         exists data k,
           fs w !! clip_path = Some (File data)
           /\ (k < Z.to_nat retries)%nat
           /\ (forall j, (j < k)%nat ->
                 Identify.transient (post E (http w + j)%nat data) = true)
           /\ Identify.success_with (post E (http w + k)%nat data) info.
Proof.
  unfold identify_song.
  destruct (fs w !! clip_path) as [[data|]|] eqn:Hclip.
  - destruct (identify_loop_run E clip_path data retries (Z.to_nat retries) 0 w Hclip)
      as (r & w' & Hrun & _ & Hstop & Hall).
    exists r, w'. split; [exact Hrun|]. intros info.
    set (out := fun k => post E (http w + k)%nat data) in *.
    destruct (first_final out (Z.to_nat retries)) as [Htrans|(k & Hk & Hfin & Hbefore)].
    + destruct (Hall Htrans) as (-> & _). split; [discriminate|].
      intros (data' & k' & [= <-] & Hk' & _ & Hsucc). exfalso.
      apply IdentifyFacts.success_not_transient in Hsucc.
      specialize (Htrans k' Hk'). unfold out in Htrans. congruence.
    + destruct (Hstop k Hk Hbefore Hfin) as (-> & _). split.
      * intros Hans. exists data, k. split; [done|]. split; [done|].
        split; [exact Hbefore|]. by apply IdentifyFacts.answer_of_success.
      * intros (data' & k' & [= <-] & Hk' & Hbefore' & Hsucc).
        assert (k' = k) as ->.
        { pose proof (IdentifyFacts.success_not_transient _ _ Hsucc) as Hnt.
          destruct (Nat.lt_trichotomy k' k) as [Hlt|[Heq|Hgt]]; [|done|].
          - specialize (Hbefore k' Hlt). unfold out in Hbefore. congruence.
          - specialize (Hbefore' k Hgt). unfold out in Hfin. congruence. }
        by apply IdentifyFacts.answer_of_success.
  - exists None, w. split.
    + destruct (Z.to_nat retries) as [|todo]; [reflexivity|].
      simpl. unfold bind. rewrite identify_attempt_no_clip; [reflexivity|].
      intros data. rewrite Hclip. discriminate.
    + intros info. split; [discriminate|].
      intros (data & k & Hfile & _). discriminate.
  - exists None, w. split.
    + destruct (Z.to_nat retries) as [|todo]; [reflexivity|].
      simpl. unfold bind. rewrite identify_attempt_no_clip; [reflexivity|].
      intros data. rewrite Hclip. discriminate.
    + intros info. split; [discriminate|].
      intros (data & k & Hfile & _). discriminate.
Qed.

(** C4: [identify_song] goes on to a further attempt only after a
    rate-limited answer (status 901) or a timeout, and makes at most
    [retries] requests; the first outcome that is neither ends the call at
    once with the answer of that outcome ([None] unless it is a success
    with a result), and when every attempt was transient the call returns
    [None].  Every sleep it makes is a backoff of [2 ^ attempt] seconds
    for an attempt number below [retries].  With [retries = 3], a
    rate-limited first answer and a successful second one, the result of
    the second attempt is returned after exactly one sleep, of
    [2 ^ 0 = 1] second. *)
Theorem identify_song_retry_policy (E : Env) (clip_path : Path) (data : bytes)
        (retries : Z) (w : World) :
  fs w !! clip_path = Some (File data) ->
  let out := fun k => post E (http w + k)%nat data in
  exists r w' slept,
    identify_song E clip_path retries w = (Ok r, w')
    /\ sleeps w' = sleeps w ++ slept
    /\ (http w <= http w' <= http w + Z.to_nat retries)%nat
    /\ Forall (fun n => exists attempt,
                 0 <= attempt < retries /\ n = Backoff (2 ^ attempt)) slept
    /\ (forall k, (k < Z.to_nat retries)%nat ->
          (forall j, (j < k)%nat -> Identify.transient (out j) = true) ->
          Identify.transient (out k) = false ->
          r = Identify.answer_of (out k)
          /\ http w' = (http w + S k)%nat
          /\ slept = Identify.backoffs retries out 0 (S k))
    /\ ((forall j, (j < Z.to_nat retries)%nat ->
           Identify.transient (out j) = true) ->
          r = None
          /\ http w' = (http w + Z.to_nat retries)%nat
          /\ slept = Identify.backoffs retries out 0 (Z.to_nat retries))
    /\ (retries = 3 ->
        (exists body, out O = HttpResponse 901 body) ->
        forall info, Identify.success_with (out 1%nat) info ->
          r = Some info /\ slept = [Backoff 1] /\ http w' = (http w + 2)%nat).
Proof.
  intros Hclip out. unfold identify_song.
  destruct (identify_loop_run E clip_path data retries (Z.to_nat retries) 0 w Hclip)
    as (r & w' & Hrun & _ & Hstop & Hall).
  fold out in Hstop, Hall.
  assert (Hcases :
    exists slept count,
      sleeps w' = sleeps w ++ slept
      /\ slept = Identify.backoffs retries out 0 count
      /\ (count <= Z.to_nat retries)%nat
      /\ (http w <= http w' <= http w + Z.to_nat retries)%nat).
  { destruct (first_final out (Z.to_nat retries))
      as [Htrans|(k & Hk & Hfin & Hbefore)].
    - destruct (Hall Htrans) as (_ & Hh & Hs).
      eexists _, _. split; [exact Hs|]. split; [reflexivity|]. lia.
    - destruct (Hstop k Hk Hbefore Hfin) as (_ & Hh & Hs).
      eexists _, _. split; [exact Hs|]. split; [reflexivity|]. lia. }
  destruct Hcases as (slept & count & Hslept & Hbk & Hcount & Hhttp).
  exists r, w', slept. split; [exact Hrun|]. split; [exact Hslept|].
  split; [exact Hhttp|]. split.
  { subst slept. eapply Forall_impl; [apply backoffs_powers|]. simpl.
    intros n (j & Hj & ->). exists j. split; [lia|done]. }
  split.
  { intros k Hk Hbefore Hfin.
    destruct (Hstop k Hk Hbefore Hfin) as (Hr & Hh & Hs).
    split; [exact Hr|]. split; [exact Hh|].
    rewrite Hslept in Hs. by apply app_inv_head in Hs. }
  split.
  { intros Htrans. destruct (Hall Htrans) as (Hr & Hh & Hs).
    split; [exact Hr|]. split; [exact Hh|].
    rewrite Hslept in Hs. by apply app_inv_head in Hs. }
  intros -> (body & Hfirst) info Hsucc.
  destruct (Hstop 1%nat) as (Hr & Hh & Hs); unfold out in *.
  - simpl. lia.
  - intros j Hj. assert (j = O) as -> by lia. by rewrite Hfirst.
  - by eapply IdentifyFacts.success_not_transient.
  - split; [rewrite Hr; by apply IdentifyFacts.answer_of_success|].
    split; [|lia].
    rewrite Hslept in Hs. apply app_inv_head in Hs. rewrite Hs.
    cbn [Identify.backoffs]. rewrite Hfirst.
    destruct Hsucc as (b & -> & _). reflexivity.
Qed.

(** ** [create_folder_structure] *)

Section FolderUnfold.
#[local] Arguments sanitize_filename : simpl never.
#[local] Arguments py : simpl never.
#[local] Arguments PyStr.strip_space : simpl never.
#[local] Arguments PyPath.suffix : simpl never.

Lemma create_folder_structure_unfold (self : Config) (song_info : SongInfo)
      (original_file : Path) :
  create_folder_structure self song_info original_file
  = ((if dry_run self then ret tt
      else mkdir_parents (expected_folder self song_info)) ;;;
     ret (expected_target self song_info original_file))%io.
Proof.
  unfold create_folder_structure, expected_target, expected_folder,
    resolved_album.
  destruct song_info as [ar ti al am sp ok].
  cbn [artist title album apple_music spotify].
  generalize (sanitize_filename (default (py "Unknown Artist") ar)).
  generalize (sanitize_filename (default (py "Unknown Title") ti)).
  generalize (PyPath.suffix original_file).
  intros ext title_name artist_name.
  destruct am as [[[[|c s]|]]|]; simpl.
  all: try (destruct (PyStr.strip_space _); reflexivity).
  all: destruct sp as [[[[[[|c' s']|]]|]]|]; simpl.
  all: try (destruct (PyStr.strip_space _); reflexivity).
  all: destruct al as [[|c'' s'']|]; simpl; try reflexivity.
  all: destruct (PyStr.strip_space _); reflexivity.
Qed.

End FolderUnfold.

Lemma sanitize_unknown_artist :
  sanitize_filename (py "Unknown Artist") = py "Unknown Artist"
  /\ sanitize_filename (py "Unknown Title") = py "Unknown Title".
Proof. split; vm_compute; reflexivity. Qed.

(** C9: the path [create_folder_structure] returns is
    [output_folder/artist[/album]/title<suffix of the original file>] with
    sanitized names.  The artist is ["Unknown Artist"] and the title
    ["Unknown Title"] when the key is absent.  The album is the first
    non-empty one of: the first provider's nested album name, the second
    provider's nested album name, the flat album field; when there is none,
    or the one found is blank, the path has no album folder.  The call
    returns this path always in a dry run, and otherwise whenever the
    folder can be created ([mkdir] raises only when a regular file is in
    the way). *)
Theorem create_folder_structure_target (self : Config) (song_info : SongInfo)
        (original_file : Path) (w : World) :
  let artist_name :=
    sanitize_filename (default (py "Unknown Artist") (artist song_info)) in
  let title_name :=
    sanitize_filename (default (py "Unknown Title") (title song_info)) in
  let file_name := title_name ++ PyPath.suffix original_file in
  let apple :=
    match apple_music song_info with Some am => albumName am | None => None end in
  let second :=
    match spotify song_info with
    | Some sp => match spotify_album sp with
                 | Some al => album_name al
                 | None => None
                 end
    | None => None
    end in
  let target := expected_target self song_info original_file in
  (* what the call does *)
  (forall p w', create_folder_structure self song_info original_file w = (Ok p, w')
                -> p = target)
  /\ (dry_run self = true ->
      create_folder_structure self song_info original_file w = (Ok target, w))
  /\ (dry_run self = false ->
      forall r w1, mkdir_parents (expected_folder self song_info) w = (r, w1) ->
        create_folder_structure self song_info original_file w
        = (match r with Ok _ => Ok target | Raise e => Raise e end, w1))
  (* the shape of the path *)
  /\ (forall album_found,
        resolved_album song_info = Some album_found ->
        PyStr.strip_space album_found <> [] ->
        target = output_folder self ++ [artist_name; sanitize_filename album_found; file_name])
  /\ ((resolved_album song_info = None
       \/ exists album_found, resolved_album song_info = Some album_found
                              /\ PyStr.strip_space album_found = []) ->
        target = output_folder self ++ [artist_name; file_name])
  (* the defaults *)
  /\ (artist song_info = None -> artist_name = py "Unknown Artist")
  /\ (title song_info = None -> title_name = py "Unknown Title")
  (* the order of the album sources *)
  /\ (truthy apple = true -> resolved_album song_info = apple)
  /\ (truthy apple = false -> truthy second = true ->
      resolved_album song_info = second)
  /\ (truthy apple = false -> truthy second = false ->
      truthy (album song_info) = true ->
      resolved_album song_info = album song_info)
  /\ (truthy apple = false -> truthy second = false ->
      truthy (album song_info) = false ->
      resolved_album song_info = None).
Proof.
  intros artist_name title_name file_name apple second target.
  rewrite create_folder_structure_unfold. fold target.
  split.
  { unfold bind, ret. destruct (dry_run self).
    - intros p w' [= <- _]. reflexivity.
    - destruct (mkdir_parents _ w) as [[[]|e] w1]; [|discriminate].
      intros p w' [= <- _]. reflexivity. }
  split.
  { intros ->. reflexivity. }
  split.
  { intros -> r w1 Hmk. unfold bind, ret. rewrite Hmk.
    destruct r as [[]|e]; reflexivity. }
  split.
  { intros album_found Hres Hblank. unfold target, expected_target, expected_folder.
    rewrite Hres. destruct (PyStr.strip_space album_found); [done|].
    unfold PyPath.div. rewrite <- !app_assoc. reflexivity. }
  split.
  { unfold target, expected_target, expected_folder, PyPath.div.
    intros [Hres|(album_found & Hres & Hblank)]; rewrite Hres.
    - rewrite <- !app_assoc. reflexivity.
    - rewrite Hblank. rewrite <- !app_assoc. reflexivity. }
  split.
  { unfold artist_name. intros ->. apply sanitize_unknown_artist. }
  split.
  { unfold title_name. intros ->. apply sanitize_unknown_artist. }
  unfold resolved_album. fold apple second.
  destruct apple as [[|c s]|], second as [[|c' s']|],
    (album song_info) as [[|c'' s'']|]; simpl;
    repeat split; intros; try reflexivity; try discriminate.
Qed.

(** ** File-system calls and [move_file] *)

Lemma chunk_size_pos : (0 < chunk_size)%nat.
Proof. unfold chunk_size. lia. Qed.

(** Feeding the chunks one by one feeds the whole file. *)
Lemma read_chunks_all fuel :
  forall (data fed : bytes),
    (length data <= fuel)%nat ->
    fold_left (fun fed chunk => fed ++ chunk) (read_chunks fuel data) fed
    = fed ++ data.
Proof.
  pose proof chunk_size_pos as Hpos.
  induction fuel as [|fuel IH]; intros data fed Hlen.
  - destruct data; [|simpl in Hlen; lia]. simpl. by rewrite app_nil_r.
  - destruct data as [|b data]; [simpl; by rewrite app_nil_r|].
    cbn [read_chunks fold_left]. rewrite IH.
    + rewrite <- app_assoc. by rewrite take_drop.
    + rewrite length_drop. simpl in *. lia.
Qed.

Section FileSystem.
Context (E : Env).

Lemma read_file_run p data w :
  fs w !! p = Some (File data) -> read_file p w = (Ok data, w).
Proof. intros H. unfold read_file. by rewrite H. Qed.

Lemma get_file_hash_run p data w :
  fs w !! p = Some (File data) -> get_file_hash E p w = (Ok (md5 E data), w).
Proof.
  intros H. unfold get_file_hash, bind, ret. rewrite (read_file_run p data w H).
  by rewrite read_chunks_all.
Qed.

Lemma getsize_run p data w :
  fs w !! p = Some (File data) -> getsize p w = (Ok (Z.of_nat (length data)), w).
Proof.
  intros H. unfold getsize, bind, ret. by rewrite (read_file_run p data w H).
Qed.

Lemma os_remove_run p data w :
  fs w !! p = Some (File data) ->
  os_remove p w = (Ok tt, set_fs (delete p (fs w)) w).
Proof. intros H. unfold os_remove. by rewrite H. Qed.

End FileSystem.

Lemma parent_is_dir_delete (f : gmap Path node) (target : Path) data :
  f !! target = Some (File data) ->
  parent_is_dir (delete target f) target = parent_is_dir f target.
Proof.
  intros Ht. unfold parent_is_dir.
  destruct (PyPath.parent target) as [|x q] eqn:Hp; [reflexivity|].
  unfold is_dir. destruct (decide (x :: q = target)) as [Heq|Hne].
  - rewrite Heq, lookup_delete_eq, Ht. reflexivity.
  - by rewrite lookup_delete_ne.
Qed.

(** X21: a move (not a dry run) of a regular file [source] onto another
    existing regular file [target], under a different path, always
    reports success, and: with equal digests the source is deleted and
    the target is left as it was; with different digests and a strictly
    larger source the target is deleted and the source takes its place
    under the same path; with different digests otherwise (target larger
    or of equal size) the target is kept and the source is deleted.
    Nothing else changes. *)
Theorem move_file_conflict (E : Env) (self : Config) (source target : Path)
        (src_data tgt_data : bytes) (w : World) :
  dry_run self = false ->
  source <> target ->
  fs w !! source = Some (File src_data) ->
  fs w !! target = Some (File tgt_data) ->
  parent_is_dir (fs w) target = true ->
  exists f',
    move_file E self source target w = (Ok true, set_fs f' w)
    /\ f' !! source = None
    /\ (forall p, p <> source -> p <> target -> f' !! p = fs w !! p)
    /\ (md5 E src_data = md5 E tgt_data ->
        f' = delete source (fs w) /\ f' !! target = Some (File tgt_data))
    /\ (md5 E src_data <> md5 E tgt_data ->
        (length tgt_data < length src_data)%nat ->
        f' = <[target := File src_data]> (delete source (delete target (fs w)))
        /\ f' !! target = Some (File src_data))
    /\ (md5 E src_data <> md5 E tgt_data ->
        (length src_data <= length tgt_data)%nat ->
        f' = delete source (fs w) /\ f' !! target = Some (File tgt_data)).
Proof.
  intros Hdry Hne Hsrc Htgt Hparent.
  unfold move_file. rewrite Hdry.
  unfold try_except, bind at 1. unfold path_exists.
  rewrite bool_decide_eq_true_2 by (rewrite Htgt; eauto).
  unfold bind at 1. rewrite (get_file_hash_run E source src_data w Hsrc).
  unfold bind at 1. rewrite (get_file_hash_run E target tgt_data w Htgt).
  case_bool_decide as Hhash.
  - (* equal digests *)
    unfold bind, ret. rewrite (os_remove_run source src_data w Hsrc).
    exists (delete source (fs w)). split; [reflexivity|].
    split; [apply lookup_delete_eq|].
    split; [intros p Hp _; by apply lookup_delete_ne|].
    split; [intros _; split; [done|]; by rewrite lookup_delete_ne|].
    split; intros; contradiction.
  - unfold bind at 1. rewrite (getsize_run source src_data w Hsrc).
    unfold bind at 1. rewrite (getsize_run target tgt_data w Htgt).
    destruct (Z.ltb_spec (Z.of_nat (length tgt_data)) (Z.of_nat (length src_data)))
      as [Hlarger|Hsmaller].
    + (* the source is strictly larger *)
      unfold bind, ret. rewrite (os_remove_run target tgt_data w Htgt).
      unfold shutil_move. cbn [fs set_fs].
      rewrite lookup_delete_ne by done. rewrite Hsrc.
      rewrite lookup_delete_eq.
      rewrite (parent_is_dir_delete _ _ _ Htgt), Hparent.
      eexists. split; [reflexivity|].
      split; [rewrite lookup_insert_ne by done; apply lookup_delete_eq|].
      split.
      { intros p Hps Hpt. rewrite lookup_insert_ne by done.
        rewrite lookup_delete_ne by done. by rewrite lookup_delete_ne. }
      split; [intros; contradiction|].
      split; [intros _ _; split; [done|apply lookup_insert_eq]|].
      intros _ Hle. lia.
    + (* the target is at least as large *)
      unfold bind, ret. rewrite (os_remove_run source src_data w Hsrc).
      exists (delete source (fs w)). split; [reflexivity|].
      split; [apply lookup_delete_eq|].
      split; [intros p Hp _; by apply lookup_delete_ne|].
      split; [intros; contradiction|].
      split; [intros _ Hlt; lia|].
      intros _ _. split; [done|]. by rewrite lookup_delete_ne.
Qed.

(** ** The loop of [organize_library] and the statistics *)

Section Loop.
Context (E : Env) (self : Config).

(** One iteration: the file's processing ends in one of three ways, and
    each moves exactly one counter. *)
Lemma count_file_cases file_path stats w :
  exists stats' w',
    count_file E self file_path stats w = (Ok stats', w')
    /\ ((process_file E self file_path w = (Ok true, w')
         /\ stats' = incr_success stats)
        \/ (process_file E self file_path w = (Ok false, w')
            /\ stats' = incr_failed stats)
        \/ (exists e, process_file E self file_path w = (Raise e, w')
                      /\ stats' = incr_failed stats)).
Proof.
  unfold count_file, try_except, bind, ret.
  destruct (process_file E self file_path w) as [[[|]|e] w'].
  - exists (incr_success stats), w'. split; [done|]. by left.
  - exists (incr_failed stats), w'. split; [done|]. right. by left.
  - exists (incr_failed stats), w'. split; [done|]. right. right. by exists e.
Qed.

Lemma organize_loop_app delay_positive count files1 :
  forall i files2 stats w,
    organize_loop E self delay_positive count i (files1 ++ files2) stats w
    = match organize_loop E self delay_positive count i files1 stats w with
      | (Ok stats1, w1) =>
          organize_loop E self delay_positive count (i + length files1)
                        files2 stats1 w1
      | (Raise e, w1) => (Raise e, w1)
      end.
Proof.
  induction files1 as [|f files1 IH]; intros i files2 stats w.
  - simpl. unfold ret. by rewrite Nat.add_0_r.
  - cbn [organize_loop app length]. unfold bind.
    destruct (count_file E self f stats w) as [[stats1|e] w1]; [|done].
    destruct ((if bool_decide (i < count)%nat && delay_positive
               then sleep Delay else ret ()) w1) as [[[]|e] w2]; [|done].
    rewrite IH.
    by replace (S i + length files1)%nat with (i + S (length files1))%nat by lia.
Qed.

(** The loop always runs to its end; it adds one to [success] or to
    [failed] per file and touches no other counter. *)
Lemma organize_loop_counts delay_positive count files :
  forall i stats w,
    exists stats' w',
      organize_loop E self delay_positive count i files stats w = (Ok stats', w')
      /\ success stats' + failed stats'
         = success stats + failed stats + Z.of_nat (length files)
      /\ success stats <= success stats'
      /\ failed stats <= failed stats'
      /\ total stats' = total stats
      /\ skipped stats' = skipped stats
      /\ duplicates stats' = duplicates stats.
Proof.
  induction files as [|f files IH]; intros i stats w.
  - exists stats, w. simpl. unfold ret. repeat split; lia.
  - simpl. unfold bind at 1.
    destruct (count_file_cases f stats w) as (stats1 & w1 & Hrun & Hcase).
    rewrite Hrun. unfold bind at 1.
    assert (Hnap : exists w2,
               (if bool_decide (i < count)%nat && delay_positive
                then sleep Delay else ret ()) w1 = (Ok tt, w2)).
    { destruct (bool_decide (i < count)%nat && delay_positive);
        eexists; reflexivity. }
    destruct Hnap as (w2 & ->).
    destruct (IH (S i) stats1 w2)
      as (stats' & w' & Hloop & Hsum & Hs & Hf & Ht & Hsk & Hd).
    exists stats', w'. split; [exact Hloop|].
    assert (Hstep : (stats1 = incr_success stats \/ stats1 = incr_failed stats)).
    { destruct Hcase as [[_ ->]|[[_ ->]|(e & _ & ->)]]; auto. }
    destruct Hstep as [-> | ->]; simpl in *;
      repeat split; try lia; congruence.
Qed.

(** [organize_library]: the scan, the loop, then [save_results]. *)
Lemma organize_library_run delay_positive w :
  exists audio_files stats w1,
    get_audio_files E self w = (Ok audio_files, w)
    /\ organize_loop E self delay_positive (length audio_files) 1 audio_files
                     (new_stats (length audio_files)) w = (Ok stats, w1)
    /\ organize_library E self delay_positive w
       = (save_results E self stats ;;; ret stats)%io w1
    /\ total stats = Z.of_nat (length audio_files)
    /\ success stats + failed stats = total stats
    /\ skipped stats = 0 /\ duplicates stats = 0.
Proof.
  unfold organize_library.
  set (audio_files :=
         List.filter
           (fun file_path =>
              is_file (fs w) file_path
              && bool_decide (PyStr.lower (PyPath.suffix file_path)
                                ∈ supported_formats))
           (rglob E (fs w) (input_folder self))).
  assert (Hscan : get_audio_files E self w = (Ok audio_files, w)) by reflexivity.
  destruct (organize_loop_counts delay_positive (length audio_files)
              audio_files 1 (new_stats (length audio_files)) w)
    as (stats & w1 & Hloop & Hsum & _ & _ & Ht & Hsk & Hd).
  exists audio_files, stats, w1. split; [exact Hscan|]. split; [exact Hloop|].
  split.
  { unfold bind at 1. rewrite Hscan. unfold bind at 1. rewrite Hloop.
    reflexivity. }
  simpl in *. repeat split; lia.
Qed.

Lemma save_results_run stats w r w' :
  save_results E self stats w = (r, w') ->
  (r = Ok tt
   /\ w' = set_fs (<[results_file self :=
                       File (json_dump E (results_of stats w))]> (fs w)) w)
  \/ (exists e, r = Raise e /\ w' = w).
Proof.
  unfold save_results, bind, get_world, modify, raise.
  destruct (parent_is_dir (fs w) (results_file self)
            && negb (is_dir (fs w) (results_file self))).
  - intros [= <- <-]. by left.
  - intros [= <- <-]. right. eauto.
Qed.

End Loop.

(** C5: every file moves exactly one of the two counters, also when an
    exception escapes [process_file] (it is counted as failed).  So for
    every run, with [total] the number of discovered files, after any
    number of files [success + failed] is the number of files processed so
    far, hence at most [total], and when the loop is over it equals
    [total]; these are the statistics [organize_library] returns. *)
Theorem stats_invariant (E : Env) (self : Config) (delay_positive : bool)
        (processed rest : list Path) (w : World) :
  let audio_files := processed ++ rest in
  let count := length audio_files in
  (* one file, one counter *)
  (forall file_path stats w0,
     exists stats' w',
       count_file E self file_path stats w0 = (Ok stats', w')
       /\ ((process_file E self file_path w0 = (Ok true, w')
            /\ success stats' = success stats + 1 /\ failed stats' = failed stats)
           \/ ((process_file E self file_path w0 = (Ok false, w')
                \/ exists e, process_file E self file_path w0 = (Raise e, w'))
               /\ success stats' = success stats
               /\ failed stats' = failed stats + 1)))
  (* after the files processed so far, and at the end *)
  /\ (exists stats_mid w_mid stats_end w_end,
       organize_loop E self delay_positive count 1 processed (new_stats count) w
       = (Ok stats_mid, w_mid)
       /\ organize_loop E self delay_positive count (1 + length processed) rest
                        stats_mid w_mid = (Ok stats_end, w_end)
       /\ organize_loop E self delay_positive count 1 audio_files (new_stats count) w
          = (Ok stats_end, w_end)
       /\ total stats_mid = Z.of_nat count
       /\ success stats_mid + failed stats_mid = Z.of_nat (length processed)
       /\ success stats_mid + failed stats_mid <= total stats_mid
       /\ 0 <= success stats_mid /\ 0 <= failed stats_mid
       /\ total stats_end = Z.of_nat count
       /\ success stats_end + failed stats_end = total stats_end)
  (* a whole run: the statistics handed to [save_results] and returned *)
  /\ exists discovered stats w1,
       get_audio_files E self w = (Ok discovered, w)
       /\ organize_library E self delay_positive w
          = (save_results E self stats ;;; ret stats)%io w1
       /\ total stats = Z.of_nat (length discovered)
       /\ success stats + failed stats = total stats
       /\ forall returned w', organize_library E self delay_positive w
                              = (Ok returned, w') -> returned = stats.
Proof.
  intros audio_files count. split.
  { intros file_path stats w0.
    destruct (count_file_cases E self file_path stats w0)
      as (stats' & w' & Hrun & Hcase).
    exists stats', w'. split; [exact Hrun|].
    destruct Hcase as [[Hp ->]|[[Hp ->]|(e & Hp & ->)]]; simpl.
    - left. done.
    - right. split; [by left|done].
    - right. split; [right; by exists e|done]. }
  destruct (organize_loop_counts E self delay_positive count processed 1
              (new_stats count) w)
    as (stats_mid & w_mid & Hmid & Hsum & Hs & Hf & Ht & _).
  destruct (organize_loop_counts E self delay_positive count rest
              (1 + length processed) stats_mid w_mid)
    as (stats_end & w_end & Hend & Hsum2 & Hs' & Hf' & Ht' & _).
  split.
  { exists stats_mid, w_mid, stats_end, w_end.
    split; [exact Hmid|]. split; [exact Hend|].
    split. { unfold audio_files. rewrite organize_loop_app, Hmid. exact Hend. }
    simpl in *. unfold count, audio_files in *. rewrite length_app in *.
    repeat split; lia. }
  destruct (organize_library_run E self delay_positive w)
    as (discovered & stats & w1 & Hscan & _ & Hlib & Htot & Hsum' & _).
  exists discovered, stats, w1.
  split; [exact Hscan|]. split; [exact Hlib|]. split; [exact Htot|].
  split; [exact Hsum'|].
  intros returned w' Hret. rewrite Hlib in Hret. unfold bind, ret in Hret.
  destruct (save_results E self stats w1) as [[[]|e] w2]; congruence.
Qed.

(** C10: nothing ever adds to [skipped] or [duplicates].  One iteration
    leaves both as they were, so does the whole loop, and since a run
    starts them at 0 they are 0 in the statistics handed to
    [save_results]: whenever [organize_library] returns, the statistics it
    returns and the manifest it has written both say [skipped = 0] and
    [duplicates = 0], whatever happened to the files. *)
Theorem skipped_duplicates_stay_zero (E : Env) (self : Config)
        (delay_positive : bool) (w : World) :
  (forall file_path stats w0,
     exists stats' w',
       count_file E self file_path stats w0 = (Ok stats', w')
       /\ skipped stats' = skipped stats
       /\ duplicates stats' = duplicates stats)
  /\ (forall count i audio_files stats w0,
        exists stats' w',
          organize_loop E self delay_positive count i audio_files stats w0
          = (Ok stats', w')
          /\ skipped stats' = skipped stats
          /\ duplicates stats' = duplicates stats)
  /\ (forall n, skipped (new_stats n) = 0 /\ duplicates (new_stats n) = 0)
  /\ exists stats w1,
       organize_library E self delay_positive w
       = (save_results E self stats ;;; ret stats)%io w1
       /\ skipped stats = 0 /\ duplicates stats = 0
       /\ forall returned w',
            organize_library E self delay_positive w = (Ok returned, w') ->
            returned = stats
            /\ exists manifest,
                 fs w' !! results_file self = Some (File (json_dump E manifest))
                 /\ manifest = results_of stats w1
                 /\ skipped (results_stats manifest) = 0
                 /\ duplicates (results_stats manifest) = 0.
Proof.
  split.
  { intros file_path stats w0.
    destruct (count_file_cases E self file_path stats w0)
      as (stats' & w' & Hrun & Hcase).
    exists stats', w'. split; [exact Hrun|].
    destruct Hcase as [[_ ->]|[[_ ->]|(e & _ & ->)]]; done. }
  split.
  { intros count i audio_files stats w0.
    destruct (organize_loop_counts E self delay_positive count audio_files i
                stats w0)
      as (stats' & w' & Hloop & _ & _ & _ & _ & Hsk & Hd).
    by exists stats', w'. }
  split; [done|].
  destruct (organize_library_run E self delay_positive w)
    as (discovered & stats & w1 & _ & _ & Hlib & _ & _ & Hsk & Hd).
  exists stats, w1. split; [exact Hlib|]. split; [exact Hsk|].
  split; [exact Hd|].
  intros returned w' Hret. rewrite Hlib in Hret. unfold bind, ret in Hret.
  destruct (save_results E self stats w1) as [[[]|e] w2] eqn:Hsave;
    [|discriminate].
  injection Hret as <- <-. split; [done|].
  destruct (save_results_run E self stats w1 _ _ Hsave)
    as [[_ ->]|(e & He & _)]; [|discriminate].
  exists (results_of stats w1). simpl. rewrite lookup_insert_eq. done.
Qed.

(** ** Frame properties of the steps of [process_file] *)

Lemma keeps_refl P w : keeps P w w.
Proof. unfold keeps. auto. Qed.

Lemma keeps_trans P w1 w2 w3 : keeps P w1 w2 -> keeps P w2 w3 -> keeps P w1 w3.
Proof.
  intros (H1 & H2 & H3 & H4) (H1' & H2' & H3' & H4'). unfold keeps.
  split; [congruence|]. split; [congruence|]. split; [congruence|].
  intros p data HP Hp. eapply H4'; [exact HP|]. eapply H4; eauto.
Qed.

Lemma keeps_weaken (P Q : Path -> Prop) w w' :
  (forall p, Q p -> P p) -> keeps P w w' -> keeps Q w w'.
Proof.
  intros HQP (H1 & H2 & H3 & H4). unfold keeps. repeat split; auto.
Qed.

Lemma ancestors_and_self_snoc (p : Path) (x : pystr) :
  PyPath.ancestors_and_self (p ++ [x]) = PyPath.ancestors_and_self p ++ [p ++ [x]].
Proof.
  induction p as [|y p IH]; simpl; [reflexivity|].
  rewrite IH. rewrite fmap_app. reflexivity.
Qed.

Lemma ancestors_and_self_parent (p : Path) :
  p <> [] ->
  PyPath.ancestors_and_self p = PyPath.ancestors_and_self (PyPath.parent p) ++ [p].
Proof.
  intros Hp. destruct (exists_last Hp) as (q & x & ->).
  unfold PyPath.parent. rewrite removelast_last. apply ancestors_and_self_snoc.
Qed.

Lemma foldr_insert_dir_lookup (keys : list Path) (f : gmap Path node) (p : Path) :
  foldr (fun q f => <[q := Dir]> f) f keys !! p
  = if bool_decide (p ∈ keys) then Some Dir else f !! p.
Proof.
  induction keys as [|k keys IH]; cbn [foldr].
  - rewrite bool_decide_eq_false_2; [done | apply not_elem_of_nil].
  - destruct (decide (k = p)) as [->|Hne].
    + rewrite lookup_insert_eq. rewrite bool_decide_eq_true_2; [done | by left].
    + rewrite lookup_insert_ne by done. rewrite IH.
      apply (f_equal (fun b : bool => if b then Some Dir else f !! p)).
      apply bool_decide_ext. rewrite elem_of_cons.
      split; [by right | intros [?|?]; [congruence|done]].
Qed.

Section Frames.
Context (E : Env) (self : Config).

(** [mkdir] raises or adds directories; it never replaces a file. *)
Lemma mkdir_parents_run (p : Path) (w : World) :
  (exists e, mkdir_parents p w = (Raise e, w))
  \/ (mkdir_parents p w
      = (Ok tt, set_fs (foldr (fun q f => <[q := Dir]> f) (fs w)
                              (PyPath.ancestors_and_self p)) w)
      /\ forall q, q ∈ PyPath.ancestors_and_self p -> is_file (fs w) q = false).
Proof.
  unfold mkdir_parents.
  destruct (existsb (is_file (fs w))
              (PyPath.ancestors_and_self (PyPath.parent p))) eqn:Hanc.
  { left. eauto. }
  destruct (is_file (fs w) p) eqn:Hfile.
  { left. eauto. }
  right. split; [reflexivity|].
  intros q Hq. destruct p as [|x p']; [by apply elem_of_nil in Hq|].
  rewrite ancestors_and_self_parent in Hq by done.
  apply elem_of_app in Hq as [Hq|Hq].
  - apply not_true_is_false. intros Hf.
    assert (existsb (is_file (fs w))
              (PyPath.ancestors_and_self (PyPath.parent (x :: p'))) = true).
    { apply existsb_exists. exists q. split; [by apply list_elem_of_In|done]. }
    congruence.
  - apply list_elem_of_singleton in Hq as ->. exact Hfile.
Qed.

Lemma mkdir_parents_keeps (p : Path) (w : World) r w' :
  mkdir_parents p w = (r, w') -> keeps (fun _ => True) w w'.
Proof.
  intros Hrun.
  destruct (mkdir_parents_run p w) as [(e & He)|[Hok Hfree]].
  - rewrite He in Hrun. injection Hrun as _ <-. apply keeps_refl.
  - rewrite Hok in Hrun. injection Hrun as _ <-.
    unfold keeps. simpl. repeat split; try reflexivity.
    intros q data _ Hq. rewrite foldr_insert_dir_lookup.
    case_bool_decide as Hin; [|exact Hq].
    specialize (Hfree q Hin). unfold is_file in Hfree. by rewrite Hq in Hfree.
Qed.

End Frames.

Section Steps.
Context (E : Env) (self : Config).

Lemma validate_audio_file_run file_path w :
  validate_audio_file E file_path w = (Ok (valid_file E (fs w) file_path), w).
Proof.
  unfold validate_audio_file, try_except, audio_from_file, bind, read_file,
    valid_file, ret, raise.
  destruct (fs w !! file_path) as [[data|]|]; try reflexivity.
  destruct (from_file E data) as [ms|]; [|reflexivity].
  simpl. destruct (Z.of_N ms <? 10000); reflexivity.
Qed.

(** Choosing the clip never raises and leaves files and fields alone. *)
Lemma select_clip_ok total duration w :
  exists clip w',
    select_clip E total duration w = (Ok clip, w')
    /\ fs w' = fs w /\ keeps (fun _ => True) w w'.
Proof.
  unfold select_clip.
  destruct (total <? duration * 1000).
  { exists Whole, w. split; [done|]. split; [done|apply keeps_refl]. }
  destruct (Z.ltb_spec (total * 85 / 100 - total * 15 / 100) (duration * 1000))
    as [Hnarrow|Hroom].
  { eexists _, w. unfold bind, ret. split; [done|].
    split; [done|apply keeps_refl]. }
  destruct (randint_in_range E (total * 15 / 100)
              (total * 85 / 100 - duration * 1000) w ltac:(lia))
    as (start & Hrand & _).
  eexists _, _. unfold bind, ret. rewrite Hrand. split; [done|].
  split; [done|]. unfold keeps. simpl. auto.
Qed.

(** [create_random_clip] in full: no clip without a decodable file; and
    with one, a temporary file is created under the name [tempfile]
    picks and then holds the encoded clip, or stays behind empty when the
    encoder raises. *)
Lemma create_random_clip_run audio_path duration w :
  exists w1,
    fs w1 = fs w /\ keeps (fun _ => True) w w1
    /\ match fs w !! audio_path with
       | Some (File data) =>
           match from_file E data with
           | Some ms =>
               exists clip,
                 select_clip E (Z.of_N ms) duration w = (Ok clip, w1)
                 /\ create_random_clip E audio_path duration w
                    = match export E data clip with
                      | Some encoded =>
                          (Ok (Some (mktemp E (fs w))),
                           set_fs (<[mktemp E (fs w) := File encoded]>
                                     (<[mktemp E (fs w) := File []]> (fs w))) w1)
                      | None =>
                          (Ok None,
                           set_fs (<[mktemp E (fs w) := File []]> (fs w)) w1)
                      end
           | None => create_random_clip E audio_path duration w = (Ok None, w)
                     /\ w1 = w
           end
       | _ => create_random_clip E audio_path duration w = (Ok None, w)
              /\ w1 = w
       end.
Proof.
  unfold create_random_clip, try_except, audio_from_file, read_file.
  unfold bind, ret, raise.
  destruct (fs w !! audio_path) as [[data|]|] eqn:Hfile.
  2,3: exists w; split; [done|]; split; [apply keeps_refl|]; split; reflexivity.
  destruct (from_file E data) as [ms|] eqn:Hdec.
  2: exists w; split; [done|]; split; [apply keeps_refl|]; split; reflexivity.
  cbn [fst snd].
  destruct (select_clip_ok (Z.of_N ms) duration w)
    as (clip & w1 & Hsel & Hfs & Hkeep).
  exists w1. split; [exact Hfs|]. split; [exact Hkeep|].
  exists clip. split; [exact Hsel|]. rewrite Hsel.
  unfold named_temporary_file, clip_export, modify, raise.
  rewrite Hfs. destruct (export E data clip); reflexivity.
Qed.

Lemma identify_attempt_keeps clip attempt retries w :
  exists ctl w',
    identify_attempt E clip attempt retries w = (Ok ctl, w')
    /\ fs w' = fs w /\ keeps (fun _ => True) w w'.
Proof.
  destruct (fs w !! clip) as [[data|]|] eqn:Hclip.
  - rewrite (identify_attempt_run E clip data attempt retries w Hclip).
    eexists _, _. split; [reflexivity|]. split; [reflexivity|].
    unfold keeps. simpl. auto.
  - rewrite identify_attempt_no_clip by (intros d; rewrite Hclip; discriminate).
    eexists _, _. split; [reflexivity|]. split; [done|apply keeps_refl].
  - rewrite identify_attempt_no_clip by (intros d; rewrite Hclip; discriminate).
    eexists _, _. split; [reflexivity|]. split; [done|apply keeps_refl].
Qed.

Lemma identify_song_keeps clip retries w :
  exists r w',
    identify_song E clip retries w = (Ok r, w')
    /\ fs w' = fs w /\ keeps (fun _ => True) w w'.
Proof.
  unfold identify_song. generalize 0. generalize (Z.to_nat retries).
  intros todo. revert w.
  induction todo as [|todo IH]; intros w first; simpl.
  - exists None, w. split; [done|]. split; [done|apply keeps_refl].
  - unfold bind.
    destruct (identify_attempt_keeps clip first retries w)
      as (ctl & w1 & -> & Hfs & Hk).
    destruct ctl as [r|].
    + exists r, w1. unfold ret. auto.
    + destruct (IH w1 (first + 1)) as (r & w' & Hrun & Hfs' & Hk').
      exists r, w'. split; [exact Hrun|]. split; [congruence|].
      eapply keeps_trans; eauto.
Qed.

Lemma create_folder_structure_keeps song_info original_file w r w' :
  create_folder_structure self song_info original_file w = (r, w') ->
  keeps (fun _ => True) w w'.
Proof.
  rewrite create_folder_structure_unfold. unfold bind, ret.
  destruct (dry_run self).
  - intros [= _ <-]. apply keeps_refl.
  - destruct (mkdir_parents (expected_folder self song_info) w)
      as [[[]|e] w1] eqn:Hmk; intros [= _ <-];
      eapply mkdir_parents_keeps; eauto.
Qed.

End Steps.

(** ** Composing frame properties *)

Create HintDb frame discriminated.

Section Preserves.
Context (E : Env) (self : Config) (P : Path -> Prop).

Lemma preserves_ret {A} (a : A) : preserves P (ret a).
Proof. intros w r w' [= _ <-]. apply keeps_refl. Qed.

Lemma preserves_raise {A} (e : exn) : preserves P (@raise A e).
Proof. intros w r w' [= _ <-]. apply keeps_refl. Qed.

Lemma preserves_bind {A B} (m : M A) (k : A -> M B) :
  preserves P m -> (forall a, preserves P (k a)) -> preserves P (bind m k).
Proof.
  intros Hm Hk w r w'. unfold bind.
  destruct (m w) as [[a|e] w1] eqn:Hrun.
  - intros Hrun'. eapply keeps_trans; [eapply Hm | eapply Hk]; eauto.
  - intros [= _ <-]. eapply Hm; eauto.
Qed.

Lemma preserves_try_except {A} (m : M A) (handler : exn -> M A) :
  preserves P m -> (forall e, preserves P (handler e)) ->
  preserves P (try_except m handler).
Proof.
  intros Hm Hh w r w'. unfold try_except.
  destruct (m w) as [[a|e] w1] eqn:Hrun.
  - intros [= _ <-]. eapply Hm; eauto.
  - intros Hrun'. eapply keeps_trans; [eapply Hm | eapply Hh]; eauto.
Qed.

Lemma preserves_try_finally {A} (m : M A) (cleanup : M unit) :
  preserves P m -> preserves P cleanup -> preserves P (try_finally m cleanup).
Proof.
  intros Hm Hc w r w'. unfold try_finally.
  destruct (m w) as [r1 w1] eqn:Hrun.
  destruct (cleanup w1) as [[[]|e] w2] eqn:Hclean; intros [= _ <-];
    (eapply keeps_trans; [eapply Hm | eapply Hc]; eauto).
Qed.

Lemma preserves_if {A} (b : bool) (m1 m2 : M A) :
  preserves P m1 -> preserves P m2 -> preserves P (if b then m1 else m2).
Proof. by destruct b. Qed.

Lemma preserves_read_file p : preserves P (read_file p).
Proof.
  intros w r w'. unfold read_file.
  destruct (fs w !! p) as [[d|]|]; intros [= _ <-]; apply keeps_refl.
Qed.

Lemma preserves_path_exists p : preserves P (path_exists p).
Proof. intros w r w' [= _ <-]. apply keeps_refl. Qed.

Lemma preserves_relative_to p root : preserves P (relative_to p root).
Proof.
  unfold relative_to. apply preserves_if;
    [apply preserves_ret | apply preserves_raise].
Qed.

Lemma preserves_getsize p : preserves P (getsize p).
Proof.
  unfold getsize. apply preserves_bind;
    [apply preserves_read_file | intros; apply preserves_ret].
Qed.

Lemma preserves_get_file_hash p : preserves P (get_file_hash E p).
Proof.
  unfold get_file_hash. apply preserves_bind;
    [apply preserves_read_file | intros; apply preserves_ret].
Qed.

Lemma preserves_os_remove p :
  (forall q, P q -> q <> p) -> preserves P (os_remove p).
Proof.
  intros HP w r w'. unfold os_remove.
  destruct (fs w !! p) as [[d|]|]; intros [= _ <-]; try apply keeps_refl.
  unfold keeps. simpl. repeat split; try reflexivity.
  intros q data Hq Hl. rewrite lookup_delete_ne; [done|].
  intros ->. by apply (HP q).
Qed.

Lemma preserves_shutil_move src dst :
  (forall q, P q -> q <> src /\ ¬ dst `prefix_of` q) ->
  preserves P (shutil_move src dst).
Proof.
  intros HP w r w'. unfold shutil_move.
  destruct (fs w !! src) as [[d|]|]; try (intros [= _ <-]; apply keeps_refl).
  destruct (fs w !! dst) as [[d'|]|].
  - destruct (parent_is_dir (fs w) dst); intros [= _ <-]; [|apply keeps_refl].
    unfold keeps. simpl. repeat split; try reflexivity.
    intros q data Hq Hl. destruct (HP q Hq) as [Hs Hd].
    rewrite lookup_insert_ne by (intros ->; by apply Hd).
    by rewrite lookup_delete_ne.
  - case_bool_decide; intros [= _ <-]; [apply keeps_refl|].
    unfold keeps. simpl. repeat split; try reflexivity.
    intros q data Hq Hl. destruct (HP q Hq) as [Hs Hd].
    rewrite lookup_insert_ne
      by (intros <-; apply Hd; by apply prefix_app_r).
    by rewrite lookup_delete_ne.
  - destruct (parent_is_dir (fs w) dst); intros [= _ <-]; [|apply keeps_refl].
    unfold keeps. simpl. repeat split; try reflexivity.
    intros q data Hq Hl. destruct (HP q Hq) as [Hs Hd].
    rewrite lookup_insert_ne by (intros ->; by apply Hd).
    by rewrite lookup_delete_ne.
Qed.

Lemma preserves_modify_fields (g : World -> World) :
  (forall w, fs (g w) = fs w /\ file_hashes (g w) = file_hashes w
             /\ failed_files (g w) = failed_files w
             /\ processed_files (g w) = processed_files w) ->
  preserves P (modify g).
Proof.
  intros Hg w r w' [= _ <-]. destruct (Hg w) as (H1 & H2 & H3 & H4).
  unfold keeps. rewrite H1. auto.
Qed.

End Preserves.

#[export] Hint Resolve preserves_ret preserves_raise preserves_read_file
  preserves_path_exists preserves_relative_to preserves_getsize
  preserves_get_file_hash : frame.

(** [move_file] touches the source and what lies at or below the target,
    nothing else. *)
Lemma move_file_preserves (E : Env) (self : Config) (source target : Path) :
  preserves (fun q => q <> source /\ ¬ target `prefix_of` q)
            (move_file E self source target).
Proof.
  unfold move_file. destruct (dry_run self).
  { apply preserves_bind; auto with frame. }
  apply preserves_try_except; [|auto with frame].
  apply preserves_bind; [auto with frame|]. intros target_exists.
  destruct target_exists.
  - apply preserves_bind; [auto with frame|]. intros source_hash.
    apply preserves_bind; [auto with frame|]. intros target_hash.
    apply preserves_if.
    + apply preserves_bind; [|auto with frame].
      apply preserves_os_remove. tauto.
    + apply preserves_bind; [auto with frame|]. intros source_size.
      apply preserves_bind; [auto with frame|]. intros target_size.
      apply preserves_bind; [|auto with frame].
      apply preserves_if.
      * apply preserves_bind.
        -- apply preserves_os_remove. intros q [_ Hq] ->. by apply Hq.
        -- intros _. apply preserves_shutil_move. tauto.
      * apply preserves_os_remove. tauto.
  - apply preserves_bind; [apply preserves_shutil_move; tauto|]. intros _.
    apply preserves_bind; auto with frame.
Qed.

(** ** [process_file], case by case *)

Section ProcessFile.
Context (E : Env) (self : Config).

Lemma valid_file_inv f file_path :
  valid_file E f file_path = true ->
  exists data ms,
    f !! file_path = Some (File data) /\ from_file E data = Some ms
    /\ 10000 <= Z.of_N ms.
Proof.
  unfold valid_file.
  destruct (f !! file_path) as [[data|]|] eqn:Hfile; try discriminate.
  destruct (from_file E data) as [ms|] eqn:Hdec; [|discriminate].
  intros H. exists data, ms. split; [done|]. split; [done|].
  destruct (Z.ltb_spec (Z.of_N ms) 10000); [discriminate | lia].
Qed.

(** A file that does not validate is a failure and nothing else happens. *)
Lemma process_file_invalid file_path w :
  valid_file E (fs w) file_path = false ->
  process_file E self file_path w
  = (Ok false, set_failed_files (failed_files w ++ [file_path]) w).
Proof.
  intros Hv. unfold process_file. unfold bind at 1.
  rewrite validate_audio_file_run, Hv. reflexivity.
Qed.

(** A valid file whose digest is on record is removed (kept in a dry
    run) and is a success. *)
Lemma process_file_duplicate file_path data w :
  valid_file E (fs w) file_path = true ->
  fs w !! file_path = Some (File data) ->
  is_Some (file_hashes w !! md5 E data) ->
  process_file E self file_path w
  = (Ok true, if dry_run self then w else set_fs (delete file_path (fs w)) w).
Proof.
  intros Hv Hfile Hseen. unfold process_file. unfold bind at 1.
  rewrite validate_audio_file_run, Hv. cbn [negb]. unfold bind at 1.
  rewrite (get_file_hash_run E file_path data w Hfile).
  unfold bind at 1. unfold get_world at 1.
  rewrite bool_decide_eq_true_2 by done.
  unfold bind, ret. destruct (dry_run self); [reflexivity|].
  by rewrite (os_remove_run file_path data w Hfile).
Qed.

(** A valid file with a new digest: the digest is recorded, the clip is
    cut, and the rest is [identify_and_move]. *)
Lemma process_file_new file_path data w :
  valid_file E (fs w) file_path = true ->
  fs w !! file_path = Some (File data) ->
  file_hashes w !! md5 E data = None ->
  process_file E self file_path w
  = match create_random_clip E file_path (clip_duration self)
            (set_file_hashes (<[md5 E data := file_path]> (file_hashes w)) w)
    with
    | (Ok (Some clip_path), w2) =>
        identify_and_move E self file_path clip_path w2
    | (Ok None, w2) =>
        (Ok false, set_failed_files (failed_files w2 ++ [file_path]) w2)
    | (Raise e, w2) => (Raise e, w2)
    end.
Proof.
  intros Hv Hfile Hnew. unfold process_file. unfold bind at 1.
  rewrite validate_audio_file_run, Hv. cbn [negb]. unfold bind at 1.
  rewrite (get_file_hash_run E file_path data w Hfile).
  unfold bind at 1. unfold get_world at 1.
  rewrite bool_decide_eq_false_2 by (rewrite Hnew; by intros [? ?]).
  unfold bind at 1. unfold modify at 1. unfold bind at 1.
  destruct (create_random_clip E file_path (clip_duration self) _)
    as [[[clip|]|e] w2]; reflexivity.
Qed.

End ProcessFile.

Section IdentifyAndMove.
Context (E : Env) (self : Config).

Lemma expected_target_under_output song_info original_file :
  output_folder self `prefix_of` expected_target self song_info original_file.
Proof.
  unfold expected_target, expected_folder, PyPath.div.
  destruct (resolved_album song_info) as [al|];
    [destruct (PyStr.strip_space al)|];
    rewrite <- ?app_assoc; apply prefix_app_r; reflexivity.
Qed.

Lemma create_folder_structure_result song_info original_file w r w' :
  create_folder_structure self song_info original_file w = (r, w') ->
  (r = Ok (expected_target self song_info original_file) \/ exists e, r = Raise e)
  /\ keeps (fun _ => True) w w'.
Proof.
  intros Hrun. split; [|by eapply create_folder_structure_keeps].
  rewrite create_folder_structure_unfold in Hrun. unfold bind, ret in Hrun.
  destruct (dry_run self).
  - injection Hrun as <- _. by left.
  - destruct (mkdir_parents _ w) as [[[]|e] w1]; injection Hrun as <- _;
      [by left | right; eauto].
Qed.

(** Deleting the clip at the end: afterwards no regular file is left
    under its name, and nothing else has changed. *)
Lemma cleanup_run clip w :
  exists w',
    try_except (os_remove clip) (fun _ => ret tt) w = (Ok tt, w')
    /\ is_file (fs w') clip = false
    /\ keeps (fun q => q <> clip) w w'
    /\ no_new_dir w w'.
Proof.
  unfold try_except, os_remove, ret.
  destruct (fs w !! clip) as [[data|]|] eqn:Hclip.
  - eexists. split; [reflexivity|]. simpl. split.
    + unfold is_file. by rewrite lookup_delete_eq.
    + split.
      * unfold keeps. simpl. repeat split; try done.
        intros q d Hq Hl. by rewrite lookup_delete_ne.
      * intros p. simpl. destruct (decide (clip = p)) as [->|Hne].
        -- by rewrite lookup_delete_eq.
        -- by rewrite lookup_delete_ne.
  - exists w. split; [reflexivity|]. split; [unfold is_file; by rewrite Hclip|].
    split; [apply keeps_refl | by intros p].
  - exists w. split; [reflexivity|]. split; [unfold is_file; by rewrite Hclip|].
    split; [apply keeps_refl | by intros p].
Qed.

(** What [identify_and_move] can do to the world, however it ends. *)
Lemma identify_and_move_summary file_path clip w r w' :
  identify_and_move E self file_path clip w = (r, w') ->
  file_hashes w' = file_hashes w
  /\ (failed_files w' = failed_files w
      \/ (r = Ok false /\ failed_files w' = failed_files w ++ [file_path]))
  /\ (processed_files w' = processed_files w
      \/ (r = Ok true
          /\ exists e, processed_files w' = processed_files w ++ [e]
                       /\ original_path e = file_path
                       /\ output_folder self `prefix_of` target_path e))
  /\ (forall p data,
        p <> file_path -> p <> clip -> ¬ output_folder self `prefix_of` p ->
        fs w !! p = Some (File data) -> fs w' !! p = Some (File data))
  /\ is_file (fs w') clip = false.
Proof.
  unfold identify_and_move, try_finally.
  set (body := bind _ _).
  destruct (body w) as [r1 w3] eqn:Hbody.
  destruct (cleanup_run clip w3) as (w4 & Hclean & Hgone & Hkc & _).
  rewrite Hclean. intros [= <- <-].
  assert (Hsum :
    file_hashes w3 = file_hashes w
    /\ (failed_files w3 = failed_files w
        \/ (r1 = Ok false /\ failed_files w3 = failed_files w ++ [file_path]))
    /\ (processed_files w3 = processed_files w
        \/ (r1 = Ok true
            /\ exists e, processed_files w3 = processed_files w ++ [e]
                         /\ original_path e = file_path
                         /\ output_folder self `prefix_of` target_path e))
    /\ (forall p data,
          p <> file_path -> ¬ output_folder self `prefix_of` p ->
          fs w !! p = Some (File data) -> fs w3 !! p = Some (File data))).
  { clear Hclean Hgone Hkc w4. unfold body, bind in Hbody.
    destruct (identify_song_keeps E clip default_retries w)
      as (o & wa & Hid & Hfsa & Hka).
    rewrite Hid in Hbody. destruct Hka as (Ha1 & Ha2 & Ha3 & Ha4).
    destruct o as [song_info|].
    - destruct (create_folder_structure self song_info file_path wa)
        as [rt wb] eqn:Hcf.
      destruct (create_folder_structure_result _ _ _ _ _ Hcf)
        as [Hrt (Hb1 & Hb2 & Hb3 & Hb4)].
      destruct Hrt as [-> | (e & ->)].
      + set (target := expected_target self song_info file_path) in *.
        destruct (move_file E self file_path target wb) as [rm wc] eqn:Hmv.
        destruct (move_file_preserves E self file_path target _ _ _ Hmv)
          as (Hc1 & Hc2 & Hc3 & Hc4).
        assert (Hfiles : forall p data,
                   p <> file_path -> ¬ output_folder self `prefix_of` p ->
                   fs w !! p = Some (File data) -> fs wc !! p = Some (File data)).
        { intros p data Hp Hout Hl. apply Hc4.
          - split; [done|]. intros Hpre. apply Hout.
            etransitivity; [apply expected_target_under_output | exact Hpre].
          - apply Hb4; [done|]. by apply Ha4. }
        destruct rm as [[|]|e].
        * unfold append_processed, modify, ret in Hbody.
          injection Hbody as <- <-. simpl.
          split; [congruence|]. split; [left; congruence|].
          split; [|exact Hfiles].
          right. split; [done|]. eexists.
          split; [rewrite Hc3, Hb3, Ha3; reflexivity|].
          split; [reflexivity|]. simpl. apply expected_target_under_output.
        * unfold ret in Hbody. injection Hbody as <- <-.
          split; [congruence|]. split; [left; congruence|].
          split; [left; congruence | exact Hfiles].
        * injection Hbody as <- <-.
          split; [congruence|]. split; [left; congruence|].
          split; [left; congruence | exact Hfiles].
      + injection Hbody as <- <-.
        split; [congruence|]. split; [left; congruence|].
        split; [left; congruence|].
        intros p data Hp Hout Hl. apply Hb4; [done|]. by apply Ha4.
    - unfold append_failed, modify, ret in Hbody. injection Hbody as <- <-.
      simpl. split; [done|]. split; [right; split; [done|congruence]|].
      split; [by left|]. intros p data _ _ Hl. by apply Ha4. }
  destruct Hsum as (H1 & H2 & H3 & H4).
  destruct Hkc as (Hk1 & Hk2 & Hk3 & Hk4).
  split; [congruence|].
  split. { destruct H2 as [H2|[-> H2]]; [left|right; split; [done|]]; congruence. }
  split. { destruct H3 as [H3|[-> (e & H3 & He)]]; [left; congruence|].
           right. split; [done|]. exists e. split; [congruence|exact He]. }
  split; [|exact Hgone].
  intros p data Hp Hclip Hout Hl. apply Hk4; [done|]. by apply H4.
Qed.

End IdentifyAndMove.

Section ProcessFileSummary.
Context (E : Env) (self : Config).

(** What one [process_file] call can do, however it ends: digests are
    only added, and the digest of a valid file is on record afterwards;
    the file is appended to [failed_files] at most (and then the call
    returned [False]); at most one entry, for this file, is appended to
    [processed_files] (and then the call returned [True]); and every
    other regular file outside the output folder is left as it was. *)
Lemma process_file_summary file_path w r w' :
  fresh_names E ->
  process_file E self file_path w = (r, w') ->
  (forall h, is_Some (file_hashes w !! h) -> is_Some (file_hashes w' !! h))
  /\ (valid_file E (fs w) file_path = true ->
      exists data, fs w !! file_path = Some (File data)
                   /\ is_Some (file_hashes w' !! md5 E data))
  /\ (failed_files w' = failed_files w
      \/ (r = Ok false /\ failed_files w' = failed_files w ++ [file_path]))
  /\ (processed_files w' = processed_files w
      \/ (r = Ok true
          /\ exists e, processed_files w' = processed_files w ++ [e]
                       /\ original_path e = file_path
                       /\ output_folder self `prefix_of` target_path e))
  /\ (forall p data,
        p <> file_path -> ¬ output_folder self `prefix_of` p ->
        fs w !! p = Some (File data) -> fs w' !! p = Some (File data)).
Proof.
  intros Hfresh Hrun.
  destruct (valid_file E (fs w) file_path) eqn:Hv.
  2:{ rewrite (process_file_invalid E self _ _ Hv) in Hrun.
      injection Hrun as <- <-. simpl.
      split; [done|]. split; [done|]. split; [by right|]. split; [by left|].
      done. }
  destruct (valid_file_inv E _ _ Hv) as (data & ms & Hfile & Hdec & Hlen).
  destruct (file_hashes w !! md5 E data) as [first|] eqn:Hseen.
  { rewrite (process_file_duplicate E self _ data _ Hv Hfile) in Hrun
      by (rewrite Hseen; eauto).
    injection Hrun as <- <-.
    assert (Hsame : file_hashes (if dry_run self then w
                                 else set_fs (delete file_path (fs w)) w)
                    = file_hashes w /\
                    failed_files (if dry_run self then w
                                  else set_fs (delete file_path (fs w)) w)
                    = failed_files w /\
                    processed_files (if dry_run self then w
                                     else set_fs (delete file_path (fs w)) w)
                    = processed_files w)
      by (destruct (dry_run self); done).
    destruct Hsame as (-> & -> & ->).
    split; [done|].
    split. { intros _. exists data. split; [done|]. rewrite Hseen. eauto. }
    split; [by left|]. split; [by left|].
    intros p d Hp _ Hl. destruct (dry_run self); [done|].
    simpl. by rewrite lookup_delete_ne. }
  rewrite (process_file_new E self _ data _ Hv Hfile Hseen) in Hrun.
  set (wh := set_file_hashes (<[md5 E data := file_path]> (file_hashes w)) w)
    in *.
  assert (Hgrow : forall h w2, file_hashes w2 = file_hashes wh ->
                    is_Some (file_hashes w !! h) ->
                    is_Some (file_hashes w2 !! h)).
  { intros h w2 -> Hh. unfold wh. simpl.
    destruct (decide (md5 E data = h)) as [<-|Hne].
    - rewrite lookup_insert_eq. eauto.
    - by rewrite lookup_insert_ne. }
  assert (Hrec : forall w2, file_hashes w2 = file_hashes wh ->
                   exists d, fs w !! file_path = Some (File d)
                             /\ is_Some (file_hashes w2 !! md5 E d)).
  { intros w2 ->. exists data. split; [done|]. unfold wh. simpl.
    rewrite lookup_insert_eq. eauto. }
  destruct (create_random_clip_run E file_path (clip_duration self) wh)
    as (w1 & Hfs1 & (Hk1 & Hk2 & Hk3 & _) & Hclip).
  change (fs wh) with (fs w) in *. rewrite Hfile, Hdec in Hclip.
  destruct Hclip as (clip & _ & Hcreate). rewrite Hcreate in Hrun.
  set (tmp := mktemp E (fs w)) in *.
  assert (Htmp : forall p d, fs w !! p = Some (File d) -> p <> tmp).
  { intros p d Hl ->. unfold tmp in Hl. by rewrite Hfresh in Hl. }
  destruct (export E data clip) as [encoded|].
  - (* the clip was written *)
    set (w2 := set_fs _ w1) in Hrun.
    destruct (identify_and_move_summary E self _ _ _ _ _ Hrun)
      as (Hh & Hf & Hp & Hkeep & _).
    assert (Hh2 : file_hashes w2 = file_hashes wh) by (unfold w2; simpl; done).
    split; [intros h; apply Hgrow; congruence|].
    split; [intros _; apply Hrec; congruence|].
    assert (Hf2 : failed_files w2 = failed_files w)
      by (unfold w2; simpl; by rewrite Hk2).
    assert (Hp2 : processed_files w2 = processed_files w)
      by (unfold w2; simpl; by rewrite Hk3).
    rewrite Hf2 in Hf. rewrite Hp2 in Hp.
    split; [exact Hf|]. split; [exact Hp|].
    intros p d Hne Hout Hl. apply Hkeep; try done; [by eapply Htmp|].
    unfold w2. simpl. rewrite !lookup_insert_ne by (symmetry; by eapply Htmp).
    exact Hl.
  - (* the encoder raised *)
    injection Hrun as <- <-. simpl.
    split; [intros h; apply Hgrow; exact Hk1|].
    split; [intros _; apply Hrec; exact Hk1|].
    split; [right; split; [done|]; by rewrite Hk2|].
    split; [left; by rewrite Hk3|].
    intros p d Hne Hout Hl.
    rewrite lookup_insert_ne by (symmetry; by eapply Htmp). exact Hl.
Qed.

End ProcessFileSummary.

(** ** The run: what the loop keeps true *)

Section Run.
Context (E : Env) (self : Config).

Lemma valid_file_lookup (f1 f2 : gmap Path node) p :
  f1 !! p = f2 !! p -> valid_file E f1 p = valid_file E f2 p.
Proof. unfold valid_file. by intros ->. Qed.

(** One iteration, seen from the loop: [count_file] and the optional
    [time.sleep(delay)]. *)
Lemma iteration_summary file_path stats (nap : bool) w :
  fresh_names E ->
  exists stats1 r w0 w1,
    count_file E self file_path stats w = (Ok stats1, w0)
    /\ process_file E self file_path w = (r, w0)
    /\ (if nap then sleep Delay else ret tt) w0 = (Ok tt, w1)
    /\ fs w1 = fs w0 /\ file_hashes w1 = file_hashes w0
    /\ failed_files w1 = failed_files w0
    /\ processed_files w1 = processed_files w0.
Proof.
  intros Hfresh.
  destruct (count_file_cases E self file_path stats w)
    as (stats1 & w0 & Hcount & Hcase).
  assert (Hr : exists r, process_file E self file_path w = (r, w0)).
  { destruct Hcase as [[H _]|[[H _]|(e & H & _)]]; eauto. }
  destruct Hr as (r & Hr).
  destruct nap.
  - exists stats1, r, w0, (set_sleeps (sleeps w0 ++ [Delay]) w0).
    repeat split; done.
  - exists stats1, r, w0, w0. repeat split; done.
Qed.

Lemma organize_loop_keeps delay_positive count files :
  fresh_names E ->
  forall i stats w,
    NoDup files ->
    exists stats' w',
      organize_loop E self delay_positive count i files stats w = (Ok stats', w')
      /\ (forall h, is_Some (file_hashes w !! h) -> is_Some (file_hashes w' !! h))
      /\ (forall e d, e ∈ files -> ¬ output_folder self `prefix_of` e ->
            fs w !! e = Some (File d) -> valid_file E (fs w) e = true ->
            is_Some (file_hashes w' !! md5 E d))
      /\ (forall p, p ∈ failed_files w' -> p ∈ failed_files w \/ p ∈ files)
      /\ (forall p d, p ∉ files -> ¬ output_folder self `prefix_of` p ->
            fs w !! p = Some (File d) -> fs w' !! p = Some (File d)).
Proof.
  intros Hfresh. induction files as [|f files IH]; intros i stats w Hnd.
  - exists stats, w. split; [reflexivity|]. split; [done|].
    split; [intros e d He; by apply elem_of_nil in He|]. split; [by left|done].
  - apply NoDup_cons in Hnd as [Hf Hnd].
    cbn [organize_loop]. unfold bind.
    destruct (iteration_summary f stats
                (bool_decide (i < count)%nat && delay_positive) w Hfresh)
      as (stats1 & r & w0 & w1 & Hcount & Hproc & Hnap & Hfs & Hh & Hff & _).
    rewrite Hcount, Hnap.
    destruct (process_file_summary E self f w r w0 Hfresh Hproc)
      as (Hgrow & Hrec & Hfail & _ & Hkeep).
    destruct (IH (S i) stats1 w1 Hnd)
      as (stats' & w' & Hloop & Hgrow' & Hrec' & Hfail' & Hkeep').
    exists stats', w'. split; [exact Hloop|].
    split. { intros h Hs. apply Hgrow'. rewrite Hh. by apply Hgrow. }
    split.
    { intros e d He Hout Hl Hv. apply elem_of_cons in He as [->|He].
      - destruct (Hrec Hv) as (d' & Hl' & Hs).
        assert (d' = d) as -> by congruence.
        apply Hgrow'. by rewrite Hh.
      - assert (e <> f) by (intros ->; contradiction).
        assert (Hl1 : fs w1 !! e = Some (File d)).
        { rewrite Hfs. by apply Hkeep. }
        apply (Hrec' e d He Hout Hl1).
        rewrite <- Hv. apply valid_file_lookup. congruence. }
    split.
    { intros p Hp. destruct (Hfail' p Hp) as [Hp'|Hp'].
      - rewrite Hff in Hp'. destruct Hfail as [Hfl|[_ Hfl]]; rewrite Hfl in Hp'.
        + by left.
        + apply elem_of_app in Hp' as [Hp'|Hp']; [by left|].
          apply list_elem_of_singleton in Hp' as ->. right. by left.
      - right. by right. }
    intros p d Hp Hout Hl. apply not_elem_of_cons in Hp as [Hpf Hp].
    apply Hkeep'; [done|done|]. rewrite Hfs. by apply Hkeep.
Qed.

End Run.

(** ** Duplicates *)

Lemma sample_fresh_names ms encoder_works answers :
  fresh_names (Sample.env ms encoder_works answers).
Proof.
  intros f. simpl. unfold Sample.tmp_name. apply not_elem_of_dom. intros Hin.
  apply (is_fresh (set_map (drop 1) (dom f) : gset Path)).
  apply elem_of_map. eexists. split; [|exact Hin]. reflexivity.
Qed.




Lemma identify_song_retry_policy_witness :
  exists r w',
    identify_song (Sample.env 20000 true Sample.limited_once) Sample.clip 3
                  Sample.with_clip = (Ok r, w')
    /\ r = Some Sample.song /\ sleeps w' = [Backoff 1].
Proof.
  destruct (identify_song_retry_policy
              (Sample.env 20000 true Sample.limited_once) Sample.clip
              Sample.tune 3 Sample.with_clip)
    as (r & w' & slept & Hrun & Hsleeps & _ & _ & _ & _ & Hexample).
  - vm_compute. reflexivity.
  - exists r, w'. split; [exact Hrun|].
    destruct (Hexample eq_refl) with (info := Sample.song) as (Hr & Hs & _).
    + exists None. reflexivity.
    + eexists. split; [reflexivity|]. split; [reflexivity|].
      split; [reflexivity|]. vm_compute. reflexivity.
    + split; [exact Hr|]. rewrite Hsleeps, Hs. reflexivity.
Defined.

Lemma move_file_conflict_witness :
  exists f',
    move_file (Sample.env 20000 true (fun _ => Sample.found))
              (Sample.config false) Sample.file_a Sample.taken Sample.conflict
    = (Ok true, set_fs f' Sample.conflict)
    /\ f' !! Sample.file_a = None
    /\ f' !! Sample.taken = Some (File Sample.tune).
Proof.
  destruct (move_file_conflict
              (Sample.env 20000 true (fun _ => Sample.found))
              (Sample.config false) Sample.file_a Sample.taken
              Sample.tune Sample.noise Sample.conflict)
    as (f' & Hrun & Hsrc & _ & _ & Hlarger & _).
  - reflexivity.
  - discriminate.
  - vm_compute. reflexivity.
  - vm_compute. reflexivity.
  - vm_compute. reflexivity.
  - exists f'. split; [exact Hrun|]. split; [exact Hsrc|].
    apply Hlarger; [vm_compute; discriminate | simpl; lia].
Defined.

(** C6 fails on the code when the target that already exists is the
    source itself, as in a library organized in place whose file is where
    it belongs: the digests are equal, so [move_file] removes the source,
    which is the target, and reports success; the only copy is gone,
    where the claim has the target left untouched.  A whole run does the
    same: one success, and the file is no longer there. *)
Theorem move_file_removes_file_in_place :
  (exists w',
     move_file (Sample.env 20000 true (fun _ => Sample.found))
               Sample.in_place_config Sample.lib_song Sample.lib_song
               Sample.organized = (Ok true, w')
     /\ fs Sample.organized !! Sample.lib_song = Some (File Sample.tune)
     /\ fs w' !! Sample.lib_song = None)
  /\ (exists stats w',
        organize_library (Sample.env 20000 true (fun _ => Sample.found))
                         Sample.in_place_config true Sample.organized
        = (Ok stats, w')
        /\ expected_target Sample.in_place_config Sample.song Sample.lib_song
           = Sample.lib_song
        /\ success stats = 1 /\ failed stats = 0
        /\ fs w' !! Sample.lib_song = None).
Proof.
  split.
  - eexists. split; [vm_compute; reflexivity|].
    split; vm_compute; reflexivity.
  - eexists _, _. split; [vm_compute; reflexivity|].
    split; [vm_compute; reflexivity|]. repeat split.
Qed.

(** ** Temporary clips *)

Section Clips.
Context (E : Env) (self : Config).

(** X6: when the encoder raises for a valid file with a new digest, the
    temporary file [create_random_clip] has created under a fresh name is
    still there, empty, when [process_file] returns; the call returns
    [False] and lists the file in [failed_files]. *)
Lemma clip_left_behind file_path data w :
  fresh_names E ->
  valid_file E (fs w) file_path = true ->
  fs w !! file_path = Some (File data) ->
  file_hashes w !! md5 E data = None ->
  (forall clip, export E data clip = None) ->
  exists w',
    process_file E self file_path w = (Ok false, w')
    /\ fs w !! mktemp E (fs w) = None
    /\ fs w' !! mktemp E (fs w) = Some (File [])
    /\ failed_files w' = failed_files w ++ [file_path].
Proof.
  intros Hfresh Hv Hfile Hnew Hexport.
  rewrite (process_file_new E self _ data _ Hv Hfile Hnew).
  set (wh := set_file_hashes _ w).
  destruct (create_random_clip_run E file_path (clip_duration self) wh)
    as (w1 & Hfs1 & (_ & Hk2 & _) & Hclip).
  change (fs wh) with (fs w) in *.
  destruct (valid_file_inv E _ _ Hv) as (data' & ms & Hfile' & Hdec & _).
  assert (data' = data) as -> by congruence.
  rewrite Hfile, Hdec in Hclip. destruct Hclip as (clip & _ & ->).
  rewrite Hexport. eexists. split; [reflexivity|].
  split; [apply Hfresh|]. simpl. split; [apply lookup_insert_eq|].
  by rewrite Hk2.
Qed.

(** When the clip was created, no regular file is left under its name
    when [process_file] returns or raises. *)
Lemma clip_removed file_path data clip w w2 r w' :
  valid_file E (fs w) file_path = true ->
  fs w !! file_path = Some (File data) ->
  file_hashes w !! md5 E data = None ->
  create_random_clip E file_path (clip_duration self)
    (set_file_hashes (<[md5 E data := file_path]> (file_hashes w)) w)
  = (Ok (Some clip), w2) ->
  process_file E self file_path w = (r, w') ->
  is_file (fs w') clip = false.
Proof.
  intros Hv Hfile Hnew Hcreate Hrun.
  rewrite (process_file_new E self _ data _ Hv Hfile Hnew), Hcreate in Hrun.
  by destruct (identify_and_move_summary E self _ _ _ _ _ Hrun)
    as (_ & _ & _ & _ & Hgone).
Qed.

End Clips.

(** C2 fails on the code: with an encoder that raises, [create_random_clip]
    has already created the temporary file, returns [None] without
    deleting it, and [process_file] returns [False] with the file still on
    disk. *)
Theorem clip_leaks_when_export_raises :
  exists w',
    process_file (Sample.env 20000 false (fun _ => Sample.found))
                 (Sample.config false) Sample.file_a Sample.twins
    = (Ok false, w')
    /\ fs Sample.twins !! Sample.tmp_name (fs Sample.twins) = None
    /\ fs w' !! Sample.tmp_name (fs Sample.twins) = Some (File []).
Proof.
  eexists. split; [vm_compute; reflexivity|].
  split; vm_compute; reflexivity.
Qed.

(** * Further properties of the code *)

(** ** [get_file_hash], [validate_audio_file], [identify_song] at the edges *)


(** X2: [validate_audio_file] never raises and changes nothing; it answers
    [True] exactly for a regular file that decodes to at least 10000 ms of
    audio (a missing file, a directory, an undecodable file and a shorter
    one all give [False]). *)
Theorem validate_audio_file_spec (E : Env) (file_path : Path) (w : World) :
  exists valid,
    validate_audio_file E file_path w = (Ok valid, w)
    /\ (valid = true <->
        exists data ms,
          fs w !! file_path = Some (File data)
          /\ from_file E data = Some ms /\ (10000 <= ms)%N).
Proof.
  exists (valid_file E (fs w) file_path).
  split; [apply validate_audio_file_run|]. split.
  - intros Hv. destruct (valid_file_inv E _ _ Hv) as (data & ms & H1 & H2 & H3).
    exists data, ms. split; [done|]. split; [done|lia].
  - intros (data & ms & H1 & H2 & H3). unfold valid_file. rewrite H1, H2.
    destruct (Z.ltb_spec (Z.of_N ms) 10000); [lia|done].
Qed.

(** X3: with no attempt allowed ([retries <= 0]) or with no regular file
    under the clip path, [identify_song] returns [None] without a single
    request, sleep or any other effect. *)
Theorem identify_song_no_request (E : Env) (clip_path : Path) (retries : Z)
        (w : World) :
  retries <= 0 \/ (forall data, fs w !! clip_path <> Some (File data)) ->
  identify_song E clip_path retries w = (Ok None, w).
Proof.
  intros [Hle|Hclip]; unfold identify_song.
  - replace (Z.to_nat retries) with O by lia. reflexivity.
  - destruct (Z.to_nat retries) as [|todo]; [reflexivity|].
    cbn [identify_loop]. unfold bind.
    by rewrite identify_attempt_no_clip.
Qed.

Lemma identify_song_no_request_witness :
  identify_song (Sample.env 20000 true (fun _ => Sample.found)) Sample.clip 0
                Sample.with_clip = (Ok None, Sample.with_clip)
  /\ identify_song (Sample.env 20000 true (fun _ => Sample.found))
                   Sample.file_c 3 Sample.with_clip
     = (Ok None, Sample.with_clip).
Proof.
  split.
  - apply identify_song_no_request. left. lia.
  - apply identify_song_no_request. right. intros data. vm_compute. discriminate.
Defined.

(** ** [get_audio_files] *)

Lemma list_filter_elem_of {A} (g : A -> bool) (l : list A) (x : A) :
  x ∈ List.filter g l <-> x ∈ l /\ g x = true.
Proof. rewrite !list_elem_of_In. apply filter_In. Qed.

Lemma elem_of_keys (f : gmap Path node) (p : Path) :
  p ∈ (map_to_list f).*1 <-> is_Some (f !! p).
Proof.
  rewrite list_elem_of_fmap. split.
  - intros ([k v] & -> & Hin). apply elem_of_map_to_list in Hin. simpl. eauto.
  - intros [v Hv]. exists (p, v). split; [done|]. by apply elem_of_map_to_list.
Qed.

(** X4: [get_audio_files] changes nothing and returns, each once, exactly
    the regular files that lie strictly below the input folder and whose
    suffix, lower-cased, is one of the seven supported ones. *)
Theorem get_audio_files_spec (E : Env) (self : Config) (w : World) :
  scan_permutes E ->
  exists audio_files,
    get_audio_files E self w = (Ok audio_files, w)
    /\ NoDup audio_files
    /\ forall p,
         p ∈ audio_files <->
         is_file (fs w) p = true
         /\ input_folder self `prefix_of` p /\ p <> input_folder self
         /\ PyStr.lower (PyPath.suffix p) ∈ supported_formats.
Proof.
  intros Hperm. eexists. split; [reflexivity|]. split.
  - apply NoDup_ListNoDup, List.NoDup_filter, NoDup_ListNoDup.
    unfold rglob. rewrite (Hperm _).
    apply NoDup_ListNoDup, List.NoDup_filter, NoDup_ListNoDup.
    apply NoDup_fst_map_to_list.
  - intros p. rewrite list_filter_elem_of. unfold rglob. rewrite (Hperm _).
    rewrite list_filter_elem_of, elem_of_keys.
    rewrite andb_true_iff, !bool_decide_eq_true.
    split.
    + intros [[_ [Hpre Hne]] [Hfile Hsuf]]. done.
    + intros (Hfile & Hpre & Hne & Hsuf). split; [|done]. split; [|done].
      unfold is_file in Hfile. destruct (fs w !! p); [eauto|discriminate].
Qed.

Lemma get_audio_files_spec_witness :
  exists audio_files,
    get_audio_files (Sample.env 20000 true (fun _ => Sample.found))
                    (Sample.config false) Sample.twins
    = (Ok audio_files, Sample.twins)
    /\ NoDup audio_files
    /\ Sample.file_a ∈ audio_files.
Proof.
  destruct (get_audio_files_spec
              (Sample.env 20000 true (fun _ => Sample.found))
              (Sample.config false) Sample.twins)
    as (audio_files & Hrun & Hnd & Hin).
  - intros l. reflexivity.
  - exists audio_files. split; [exact Hrun|]. split; [exact Hnd|].
    apply Hin. split; [vm_compute; reflexivity|].
    split; [apply (bool_decide_unpack _); vm_compute; exact I|].
    split; [discriminate|].
    apply (bool_decide_unpack _). vm_compute. exact I.
Defined.

(** ** [create_random_clip] and the temporary clip *)

Lemma clip_left_behind_witness :
  exists w',
    process_file (Sample.env 20000 false (fun _ => Sample.found))
                 (Sample.config false) Sample.file_b Sample.twins
    = (Ok false, w')
    /\ fs w' !! Sample.tmp_name (fs Sample.twins) = Some (File []).
Proof.
  destruct (clip_left_behind
              (Sample.env 20000 false (fun _ => Sample.found))
              (Sample.config false) Sample.file_b Sample.tune Sample.twins)
    as (w' & Hrun & _ & Hleft & _).
  - apply sample_fresh_names.
  - vm_compute. reflexivity.
  - vm_compute. reflexivity.
  - vm_compute. reflexivity.
  - intros clip. reflexivity.
  - exists w'. split; [exact Hrun | exact Hleft].
Defined.

(** X5: [create_random_clip] never raises.  It returns a path only for a
    regular file that decodes, and then the path is one no node had
    before, and it now holds the encoded clip; for anything else (missing
    file, directory, file that does not decode) it returns [None] and
    changes nothing.  In every case the files that were there keep their
    bytes and the fields of the organizer stay as they were. *)
Theorem create_random_clip_spec (E : Env) (audio_path : Path) (duration : Z)
        (w : World) :
  fresh_names E ->
  exists clip_path w',
    create_random_clip E audio_path duration w = (Ok clip_path, w')
    /\ (forall p data, fs w !! p = Some (File data) ->
                       fs w' !! p = Some (File data))
    /\ file_hashes w' = file_hashes w
    /\ failed_files w' = failed_files w
    /\ processed_files w' = processed_files w
    /\ (forall name, clip_path = Some name ->
          fs w !! name = None
          /\ exists data clip encoded,
               fs w !! audio_path = Some (File data)
               /\ is_Some (from_file E data)
               /\ export E data clip = Some encoded
               /\ fs w' !! name = Some (File encoded))
    /\ ((forall data, fs w !! audio_path = Some (File data) ->
                      from_file E data = None) ->
        clip_path = None /\ w' = w).
Proof.
  intros Hfresh.
  destruct (create_random_clip_run E audio_path duration w)
    as (w1 & Hfs1 & (Hk1 & Hk2 & Hk3 & _) & Hclip).
  assert (Htmp : forall p d, fs w !! p = Some (File d) -> mktemp E (fs w) <> p).
  { intros p d Hl <-. by rewrite Hfresh in Hl. }
  destruct (fs w !! audio_path) as [[data|]|] eqn:Hfile.
  2,3: destruct Hclip as [-> ->]; exists None, w;
    repeat split; try done; discriminate.
  destruct (from_file E data) as [ms|] eqn:Hdec.
  2:{ destruct Hclip as [-> ->]. exists None, w.
      repeat split; try done; discriminate. }
  destruct Hclip as (clip & _ & ->).
  destruct (export E data clip) as [encoded|] eqn:Hexp.
  - eexists _, _. split; [reflexivity|]. simpl.
    split. { intros p d Hl. rewrite !lookup_insert_ne by by eapply Htmp. done. }
    split; [done|]. split; [done|]. split; [done|]. split.
    + intros name [= <-]. split; [apply Hfresh|].
      exists data, clip, encoded. split; [done|]. split; [by rewrite Hdec|].
      split; [done|]. apply lookup_insert_eq.
    + intros Hnone. specialize (Hnone data eq_refl). congruence.
  - eexists _, _. split; [reflexivity|]. simpl.
    split. { intros p d Hl. rewrite lookup_insert_ne by by eapply Htmp. done. }
    split; [done|]. split; [done|]. split; [done|]. split; [discriminate|].
    intros Hnone. specialize (Hnone data eq_refl). congruence.
Qed.

Lemma create_random_clip_spec_witness :
  exists clip_path w',
    create_random_clip (Sample.env 20000 true (fun _ => Sample.found))
                       Sample.file_a 10 Sample.twins = (Ok clip_path, w')
    /\ fs w' !! Sample.file_b = Some (File Sample.tune).
Proof.
  destruct (create_random_clip_spec
              (Sample.env 20000 true (fun _ => Sample.found))
              Sample.file_a 10 Sample.twins (sample_fresh_names _ _ _))
    as (clip_path & w' & Hrun & Hkept & _).
  exists clip_path, w'. split; [exact Hrun|]. apply Hkept.
  vm_compute. reflexivity.
Defined.

(** X7: once the clip has been written (the encoder works), no regular
    file is left under the clip's name when [process_file] is over,
    however it ends: identified or not, moved or not, or with an
    exception from [mkdir]. *)
Theorem clip_removed_on_every_path (E : Env) (self : Config)
        (file_path : Path) (data : bytes) (w : World) (r : outcome bool)
        (w' : World) :
  valid_file E (fs w) file_path = true ->
  fs w !! file_path = Some (File data) ->
  file_hashes w !! md5 E data = None ->
  (forall clip, is_Some (export E data clip)) ->
  process_file E self file_path w = (r, w') ->
  is_file (fs w') (mktemp E (fs w)) = false.
Proof.
  intros Hv Hfile Hnew Hexport Hrun.
  set (wh := set_file_hashes (<[md5 E data := file_path]> (file_hashes w)) w).
  destruct (create_random_clip_run E file_path (clip_duration self) wh)
    as (w1 & _ & _ & Hclip).
  change (fs wh) with (fs w) in Hclip.
  destruct (valid_file_inv E _ _ Hv) as (data' & ms & Hfile' & Hdec & _).
  assert (data' = data) as -> by congruence.
  rewrite Hfile, Hdec in Hclip. destruct Hclip as (clip & _ & Hcreate).
  destruct (Hexport clip) as [encoded Henc]. rewrite Henc in Hcreate.
  eapply clip_removed; eauto.
Qed.

Lemma clip_removed_on_every_path_witness :
  exists r w',
    process_file (Sample.env 20000 true (fun _ => Sample.found))
                 (Sample.config false) Sample.file_a Sample.twins = (r, w')
    /\ is_file (fs w') (Sample.tmp_name (fs Sample.twins)) = false.
Proof.
  eexists _, _. split; [vm_compute; reflexivity|].
  apply (clip_removed_on_every_path
           (Sample.env 20000 true (fun _ => Sample.found))
           (Sample.config false) Sample.file_a Sample.tune Sample.twins
           (Ok true)).
  - vm_compute. reflexivity.
  - vm_compute. reflexivity.
  - vm_compute. reflexivity.
  - intros clip. eexists. reflexivity.
  - vm_compute. reflexivity.
Defined.

(** ** [move_file] beyond the conflict *)

Lemma move_file_free_target_aux (E : Env) (self : Config)
      (source target : Path) (data : bytes) (w : World) :
  dry_run self = false ->
  fs w !! source = Some (File data) ->
  fs w !! target = None ->
  parent_is_dir (fs w) target = true ->
  move_file E self source target w
  = (Ok (bool_decide (output_folder self `prefix_of` target)),
     set_fs (<[target := File data]> (delete source (fs w))) w).
Proof.
  intros Hdry Hsrc Htgt Hparent. unfold move_file. rewrite Hdry.
  unfold try_except, bind at 1. unfold path_exists.
  rewrite bool_decide_eq_false_2 by (rewrite Htgt; by intros [? ?]).
  unfold bind at 1. unfold shutil_move. rewrite Hsrc, Htgt, Hparent.
  unfold bind, relative_to, ret, raise. by case_bool_decide.
Qed.

(** X8: a move (not a dry run) of a regular file to a path where nothing
    is, in a folder that exists, puts the file's bytes under the target
    and removes the source.  It reports [True] when the target lies in
    the output folder; for a target elsewhere the file is moved all the
    same, but the log line's [relative_to] raises inside the [try] and the
    move reports [False]. *)
Theorem move_file_free_target (E : Env) (self : Config) (source target : Path)
        (data : bytes) (w : World) :
  dry_run self = false ->
  fs w !! source = Some (File data) ->
  fs w !! target = None ->
  parent_is_dir (fs w) target = true ->
  move_file E self source target w
  = (Ok (bool_decide (output_folder self `prefix_of` target)),
     set_fs (<[target := File data]> (delete source (fs w))) w).
Proof.
  intros Hdry Hsrc Htgt Hparent. by apply move_file_free_target_aux.
Qed.

Lemma move_file_free_target_witness :
  exists f',
    move_file (Sample.env 20000 true (fun _ => Sample.found))
              (Sample.config false) Sample.file_a Sample.taken Sample.twins
    = (Ok true, set_fs f' Sample.twins)
    /\ f' !! Sample.taken = Some (File Sample.tune)
    /\ f' !! Sample.file_a = None.
Proof.
  eexists. split.
  - rewrite (move_file_free_target
               (Sample.env 20000 true (fun _ => Sample.found))
               (Sample.config false) Sample.file_a Sample.taken Sample.tune
               Sample.twins); [reflexivity|..]; vm_compute; reflexivity.
  - split; vm_compute; reflexivity.
Defined.

(** X9: when source and target are the same path and the move is not a
    dry run, the equal-digest branch removes the file: the move reports
    [True] and the only copy is gone. *)
Theorem move_file_onto_itself (E : Env) (self : Config) (file_path : Path)
        (data : bytes) (w : World) :
  dry_run self = false ->
  fs w !! file_path = Some (File data) ->
  move_file E self file_path file_path w
  = (Ok true, set_fs (delete file_path (fs w)) w).
Proof.
  intros Hdry Hfile. unfold move_file. rewrite Hdry.
  unfold try_except, bind at 1. unfold path_exists.
  rewrite bool_decide_eq_true_2 by (rewrite Hfile; eauto).
  unfold bind at 1. rewrite (get_file_hash_run E file_path data w Hfile).
  unfold bind at 1. rewrite (get_file_hash_run E file_path data w Hfile).
  rewrite bool_decide_eq_true_2 by done.
  unfold bind, ret. by rewrite (os_remove_run file_path data w Hfile).
Qed.

Lemma move_file_onto_itself_witness :
  exists w',
    move_file (Sample.env 20000 true (fun _ => Sample.found))
              (Sample.config false) Sample.taken Sample.taken Sample.conflict
    = (Ok true, w')
    /\ fs w' !! Sample.taken = None.
Proof.
  eexists. split.
  - apply (move_file_onto_itself
             (Sample.env 20000 true (fun _ => Sample.found))
             (Sample.config false) Sample.taken Sample.noise Sample.conflict).
    + reflexivity.
    + vm_compute. reflexivity.
  - vm_compute. reflexivity.
Defined.

(** X10: [move_file] is confined.  Outside a dry run it never raises
    (every exception becomes [False]); in a dry run it changes nothing;
    and in every case the fields of the organizer are untouched and every
    regular file other than the source that does not lie at or below the
    target keeps its bytes. *)
Theorem move_file_confined (E : Env) (self : Config) (source target : Path)
        (w : World) (r : outcome bool) (w' : World) :
  move_file E self source target w = (r, w') ->
  (dry_run self = false -> exists moved, r = Ok moved)
  /\ (dry_run self = true -> w' = w)
  /\ file_hashes w' = file_hashes w
  /\ failed_files w' = failed_files w
  /\ processed_files w' = processed_files w
  /\ forall p data,
       p <> source -> ¬ target `prefix_of` p ->
       fs w !! p = Some (File data) -> fs w' !! p = Some (File data).
Proof.
  intros Hrun.
  destruct (move_file_preserves E self source target _ _ _ Hrun)
    as (H1 & H2 & H3 & H4).
  split.
  { intros Hdry. unfold move_file in Hrun. rewrite Hdry in Hrun.
    unfold try_except in Hrun.
    destruct (bind _ _ w) as [[b|e] w1]; injection Hrun as <- _; eauto. }
  split.
  { intros Hdry. unfold move_file in Hrun. rewrite Hdry in Hrun.
    unfold bind, relative_to, ret, raise in Hrun.
    case_bool_decide; by injection Hrun as _ <-. }
  split; [exact H1|]. split; [exact H2|]. split; [exact H3|].
  intros p data Hp Ht. by apply H4.
Qed.

Lemma move_file_confined_witness :
  exists r w',
    move_file (Sample.env 20000 true (fun _ => Sample.found))
              (Sample.config false) Sample.file_a Sample.taken Sample.conflict
    = (r, w')
    /\ fs w' !! Sample.in_dir = fs Sample.conflict !! Sample.in_dir
    /\ exists moved, r = Ok moved.
Proof.
  eexists _, _. split; [vm_compute; reflexivity|].
  split; [vm_compute; reflexivity|].
  eapply (move_file_confined
            (Sample.env 20000 true (fun _ => Sample.found))
            (Sample.config false) Sample.file_a Sample.taken Sample.conflict).
  - vm_compute. reflexivity.
  - reflexivity.
Defined.

(** ** What one [process_file] call and a whole run can change *)

Lemma process_file_hashes (E : Env) (self : Config) (file_path : Path)
      (w : World) (r : outcome bool) (w' : World) :
  process_file E self file_path w = (r, w') ->
  file_hashes w' = file_hashes w
  \/ exists data,
       fs w !! file_path = Some (File data)
       /\ valid_file E (fs w) file_path = true
       /\ file_hashes w !! md5 E data = None
       /\ file_hashes w' = <[md5 E data := file_path]> (file_hashes w).
Proof.
  intros Hrun.
  destruct (valid_file E (fs w) file_path) eqn:Hv.
  2:{ rewrite (process_file_invalid E self _ _ Hv) in Hrun.
      injection Hrun as _ <-. by left. }
  destruct (valid_file_inv E _ _ Hv) as (data & ms & Hfile & Hdec & _).
  destruct (file_hashes w !! md5 E data) as [first|] eqn:Hseen.
  { rewrite (process_file_duplicate E self _ data _ Hv Hfile) in Hrun
      by (rewrite Hseen; eauto).
    injection Hrun as _ <-. left. by destruct (dry_run self). }
  right. exists data. split; [done|]. split; [done|]. split; [done|].
  rewrite (process_file_new E self _ data _ Hv Hfile Hseen) in Hrun.
  set (wh := set_file_hashes (<[md5 E data := file_path]> (file_hashes w)) w)
    in *.
  destruct (create_random_clip_run E file_path (clip_duration self) wh)
    as (w1 & _ & (Hk1 & _) & Hclip).
  change (fs wh) with (fs w) in Hclip. rewrite Hfile, Hdec in Hclip.
  destruct Hclip as (clip & _ & Hcreate). rewrite Hcreate in Hrun.
  destruct (export E data clip) as [encoded|].
  - destruct (identify_and_move_summary E self _ _ _ _ _ Hrun) as (Hh & _).
    rewrite Hh. simpl. exact Hk1.
  - injection Hrun as _ <-. simpl. exact Hk1.
Qed.

(** X11: the digest index keeps the first file seen with each digest.  A
    [process_file] call never changes or removes an entry; the only entry
    it can add maps the digest of the file it processes, when that file is
    valid and its digest was not on record, to that file. *)
Theorem digest_index_first_seen (E : Env) (self : Config) (file_path : Path)
        (w : World) (r : outcome bool) (w' : World) :
  process_file E self file_path w = (r, w') ->
  (forall digest seen, file_hashes w !! digest = Some seen ->
                       file_hashes w' !! digest = Some seen)
  /\ (forall digest seen,
        file_hashes w' !! digest = Some seen ->
        file_hashes w !! digest = Some seen
        \/ (file_hashes w !! digest = None /\ seen = file_path
            /\ valid_file E (fs w) file_path = true
            /\ exists data, fs w !! file_path = Some (File data)
                            /\ digest = md5 E data)).
Proof.
  intros Hrun.
  destruct (process_file_hashes E self _ _ _ _ Hrun)
    as [->|(data & Hfile & Hv & Hnew & ->)].
  - split; [done|]. intros digest seen Hl. by left.
  - split.
    + intros digest seen Hl.
      rewrite lookup_insert_ne; [done|]. intros <-. congruence.
    + intros digest seen Hl.
      destruct (decide (md5 E data = digest)) as [<-|Hne].
      * rewrite lookup_insert_eq in Hl. injection Hl as <-.
        right. split; [done|]. split; [done|]. split; [done|]. eauto.
      * rewrite lookup_insert_ne in Hl by done. by left.
Qed.

Lemma digest_index_first_seen_witness :
  exists r w',
    process_file (Sample.env 20000 true (fun _ => Sample.found))
                 (Sample.config false) Sample.file_a Sample.twins = (r, w')
    /\ forall digest seen,
         file_hashes w' !! digest = Some seen -> seen = Sample.file_a.
Proof.
  eexists _, _. split; [vm_compute; reflexivity|].
  intros digest seen Hl.
  eapply (digest_index_first_seen
            (Sample.env 20000 true (fun _ => Sample.found))
            (Sample.config false) Sample.file_a Sample.twins) in Hl
    as [Hold|(_ & -> & _)]; [| |vm_compute; reflexivity].
  - vm_compute in Hold. discriminate.
  - reflexivity.
Defined.

(** X12: one [process_file] call, however it ends, appends nothing but
    the file itself to [failed_files], and only when it returns [False];
    appends at most one entry to [processed_files], for this file with a
    target inside the output folder, and only when it returns [True]; and
    leaves every other regular file outside the output folder with the
    bytes it had. *)
Theorem process_file_effects (E : Env) (self : Config) (file_path : Path)
        (w : World) (r : outcome bool) (w' : World) :
  fresh_names E ->
  process_file E self file_path w = (r, w') ->
  (failed_files w' = failed_files w
   \/ (r = Ok false /\ failed_files w' = failed_files w ++ [file_path]))
  /\ (processed_files w' = processed_files w
      \/ (r = Ok true
          /\ exists e, processed_files w' = processed_files w ++ [e]
                       /\ original_path e = file_path
                       /\ output_folder self `prefix_of` target_path e))
  /\ (forall p data,
        p <> file_path -> ¬ output_folder self `prefix_of` p ->
        fs w !! p = Some (File data) -> fs w' !! p = Some (File data)).
Proof.
  intros Hfresh Hrun.
  by destruct (process_file_summary E self _ _ _ _ Hfresh Hrun)
    as (_ & _ & Hf & Hp & Hk).
Qed.

Lemma process_file_effects_witness :
  exists r w',
    process_file (Sample.env 20000 true (fun _ => Sample.found))
                 (Sample.config false) Sample.file_a Sample.twins = (r, w')
    /\ fs w' !! Sample.file_b = Some (File Sample.tune).
Proof.
  eexists _, _. split; [vm_compute; reflexivity|].
  eapply (process_file_effects
            (Sample.env 20000 true (fun _ => Sample.found))
            (Sample.config false) Sample.file_a Sample.twins).
  - apply sample_fresh_names.
  - vm_compute. reflexivity.
  - discriminate.
  - apply (bool_decide_unpack _). vm_compute. exact I.
  - vm_compute. reflexivity.
Defined.

(** X13: a run over distinct files never raises out of the loop, leaves
    every regular file that is neither one of the audio files nor inside
    the output folder with the bytes it had, and lists in [failed_files]
    only audio files of the run (besides what was listed before). *)
Theorem run_leaves_other_files (E : Env) (self : Config)
        (delay_positive : bool) (count i : nat) (audio_files : list Path)
        (stats : ProcessingStats) (w : World) :
  fresh_names E ->
  NoDup audio_files ->
  exists stats' w',
    organize_loop E self delay_positive count i audio_files stats w
    = (Ok stats', w')
    /\ (forall p data,
          p ∉ audio_files -> ¬ output_folder self `prefix_of` p ->
          fs w !! p = Some (File data) -> fs w' !! p = Some (File data))
    /\ (forall p, p ∈ failed_files w' -> p ∈ failed_files w \/ p ∈ audio_files).
Proof.
  intros Hfresh Hnd.
  destruct (organize_loop_keeps E self delay_positive count audio_files Hfresh
              i stats w Hnd)
    as (stats' & w' & Hloop & _ & _ & Hfail & Hkeep).
  by exists stats', w'.
Qed.

Lemma run_leaves_other_files_witness :
  exists stats' w',
    organize_loop (Sample.env 20000 true (fun _ => Sample.found))
                  (Sample.config false) true 1 1 [Sample.file_a]
                  (new_stats 1) Sample.twins = (Ok stats', w')
    /\ fs w' !! Sample.file_b = Some (File Sample.tune).
Proof.
  destruct (run_leaves_other_files
              (Sample.env 20000 true (fun _ => Sample.found))
              (Sample.config false) true 1 1 [Sample.file_a] (new_stats 1)
              Sample.twins (sample_fresh_names _ _ _))
    as (stats' & w' & Hloop & Hkeep & _).
  - apply (bool_decide_unpack _). vm_compute. exact I.
  - exists stats', w'. split; [exact Hloop|]. apply Hkeep.
    + apply (bool_decide_unpack _). vm_compute. exact I.
    + apply (bool_decide_unpack _). vm_compute. exact I.
    + vm_compute. reflexivity.
Defined.

(** X14: the lists of the manifest never run ahead of the counters: over
    any stretch of the loop, [failed_files] grows by at most the increase
    of [failed] and [processed_files] by at most the increase of
    [success].  (A duplicate is a success without an entry; a failed or
    raising move is a failure without a listed path.) *)
Theorem manifest_lists_bounded (E : Env) (self : Config)
        (delay_positive : bool) (count : nat) (audio_files : list Path) :
  fresh_names E ->
  forall (i : nat) (stats : ProcessingStats) (w : World),
  exists stats' w',
    organize_loop E self delay_positive count i audio_files stats w
    = (Ok stats', w')
    /\ Z.of_nat (length (failed_files w')) - Z.of_nat (length (failed_files w))
       <= failed stats' - failed stats
    /\ Z.of_nat (length (processed_files w'))
       - Z.of_nat (length (processed_files w))
       <= success stats' - success stats
    /\ (length (failed_files w) <= length (failed_files w'))%nat
    /\ (length (processed_files w) <= length (processed_files w'))%nat.
Proof.
  intros Hfresh. induction audio_files as [|f files IH]; intros i stats w.
  - exists stats, w. split; [reflexivity|]. lia.
  - cbn [organize_loop]. unfold bind.
    destruct (iteration_summary E self f stats
                (bool_decide (i < count)%nat && delay_positive) w Hfresh)
      as (stats1 & r & w0 & w1 & Hcount & Hproc & Hnap & _ & _ & Hff & Hpf).
    rewrite Hcount, Hnap.
    destruct (process_file_summary E self f w r w0 Hfresh Hproc)
      as (_ & _ & Hfail & Hdone & _).
    destruct (IH (S i) stats1 w1) as (stats' & w' & Hloop & Hf' & Hp' & Hfl & Hpl).
    exists stats', w'. split; [exact Hloop|].
    rewrite Hff in Hf', Hfl. rewrite Hpf in Hp', Hpl.
    assert (Hstats :
      (r = Ok true /\ stats1 = incr_success stats)
      \/ (r <> Ok true /\ stats1 = incr_failed stats)).
    { destruct (count_file_cases E self f stats w)
        as (stats1' & w0' & Hcount' & Hcase).
      rewrite Hcount in Hcount'. injection Hcount' as <- <-.
      destruct Hcase as [[Hp ->]|[[Hp ->]|(e & Hp & ->)]];
        rewrite Hproc in Hp; injection Hp as ->; [left|right|right];
        (split; [congruence|reflexivity]). }
    destruct Hfail as [Hfail|[-> Hfail]], Hdone as [Hdone|[Hr (e & Hdone & _)]];
      rewrite Hfail in *; rewrite Hdone in *; rewrite ?length_app in *;
      destruct Hstats as [[Hr' ->]|[Hr' ->]]; simpl in *;
      try congruence; lia.
Qed.

Lemma manifest_lists_bounded_witness :
  exists stats' w',
    organize_loop (Sample.env 20000 true (fun _ => Sample.found))
                  (Sample.config false) true 2 1 [Sample.file_b; Sample.file_a]
                  (new_stats 2) Sample.twins = (Ok stats', w')
    /\ Z.of_nat (length (processed_files w')) <= success stats'.
Proof.
  destruct (manifest_lists_bounded
              (Sample.env 20000 true (fun _ => Sample.found))
              (Sample.config false) true 2 [Sample.file_b; Sample.file_a]
              (sample_fresh_names _ _ _) 1%nat (new_stats 2) Sample.twins)
    as (stats' & w' & Hloop & _ & Hp & _).
  exists stats', w'. split; [exact Hloop|]. simpl in Hp. lia.
Defined.

(** ** Dry runs *)

Section DryRun.
Context (E : Env) (self : Config).
Hypothesis Hdry : dry_run self = true.

Lemma identify_and_move_dry file_path clip w r w' :
  identify_and_move E self file_path clip w = (r, w') ->
  (exists b, r = Ok b)
  /\ (forall p data, p <> clip -> fs w !! p = Some (File data) ->
                     fs w' !! p = Some (File data))
  /\ no_new_dir w w'.
Proof.
  unfold identify_and_move, try_finally.
  set (body := bind _ _).
  destruct (body w) as [r1 w3] eqn:Hbody.
  destruct (cleanup_run clip w3) as (w4 & Hclean & _ & (_ & _ & _ & Hkc) & Hnd).
  rewrite Hclean. intros [= <- <-].
  assert (Hsum : (exists b, r1 = Ok b) /\ fs w3 = fs w).
  { unfold body, bind in Hbody.
    destruct (identify_song_keeps E clip default_retries w)
      as (o & wa & Hid & Hfsa & _).
    rewrite Hid in Hbody. destruct o as [song_info|].
    - rewrite create_folder_structure_unfold in Hbody.
      unfold bind, ret in Hbody. rewrite Hdry in Hbody.
      unfold move_file in Hbody. rewrite Hdry in Hbody.
      unfold bind, relative_to, ret in Hbody.
      rewrite bool_decide_eq_true_2 in Hbody
        by apply expected_target_under_output.
      unfold append_processed, modify in Hbody.
      injection Hbody as <- <-. split; [eauto|exact Hfsa].
    - unfold append_failed, modify, ret in Hbody.
      injection Hbody as <- <-. split; [eauto|exact Hfsa]. }
  destruct Hsum as [Hok Hfs]. split; [exact Hok|]. split.
  - intros p data Hp Hl. apply Hkc; [done|]. by rewrite Hfs.
  - intros p Hp. specialize (Hnd p Hp). by rewrite Hfs in Hnd.
Qed.

Lemma process_file_dry file_path w r w' :
  fresh_names E ->
  process_file E self file_path w = (r, w') ->
  (exists b, r = Ok b)
  /\ (forall p data, fs w !! p = Some (File data) ->
                     fs w' !! p = Some (File data))
  /\ no_new_dir w w'.
Proof.
  intros Hfresh Hrun.
  destruct (valid_file E (fs w) file_path) eqn:Hv.
  2:{ rewrite (process_file_invalid E self _ _ Hv) in Hrun.
      injection Hrun as <- <-. split; [eauto|]. split; [done|by intros p]. }
  destruct (valid_file_inv E _ _ Hv) as (data & ms & Hfile & Hdec & _).
  destruct (file_hashes w !! md5 E data) as [first|] eqn:Hseen.
  { rewrite (process_file_duplicate E self _ data _ Hv Hfile) in Hrun
      by (rewrite Hseen; eauto).
    rewrite Hdry in Hrun. injection Hrun as <- <-.
    split; [eauto|]. split; [done|by intros p]. }
  rewrite (process_file_new E self _ data _ Hv Hfile Hseen) in Hrun.
  set (wh := set_file_hashes (<[md5 E data := file_path]> (file_hashes w)) w)
    in *.
  destruct (create_random_clip_run E file_path (clip_duration self) wh)
    as (w1 & Hfs1 & _ & Hclip).
  change (fs wh) with (fs w) in *. rewrite Hfile, Hdec in Hclip.
  destruct Hclip as (clip & _ & Hcreate). rewrite Hcreate in Hrun.
  set (tmp := mktemp E (fs w)) in *.
  assert (Htmp : fs w !! tmp = None) by apply Hfresh.
  destruct (export E data clip) as [encoded|].
  - destruct (identify_and_move_dry _ _ _ _ _ Hrun) as (Hok & Hkeep & Hnd).
    split; [exact Hok|]. split.
    + intros p d Hl. assert (p <> tmp) by (intros ->; congruence).
      apply Hkeep; [done|]. simpl. by rewrite !lookup_insert_ne.
    + intros p Hp. specialize (Hnd p Hp). simpl in Hnd.
      destruct (decide (tmp = p)) as [<-|Hne].
      * rewrite lookup_insert_eq in Hnd. discriminate.
      * by rewrite !lookup_insert_ne in Hnd.
  - injection Hrun as <- <-. split; [eauto|]. simpl. split.
    + intros p d Hl. assert (p <> tmp) by (intros ->; congruence).
      by rewrite lookup_insert_ne.
    + intros p Hp. simpl in Hp. destruct (decide (tmp = p)) as [<-|Hne].
      * rewrite lookup_insert_eq in Hp. discriminate.
      * by rewrite lookup_insert_ne in Hp.
Qed.

Lemma organize_loop_dry delay_positive count audio_files :
  fresh_names E ->
  forall i stats w,
    exists stats' w',
      organize_loop E self delay_positive count i audio_files stats w
      = (Ok stats', w')
      /\ (forall p data, fs w !! p = Some (File data) ->
                         fs w' !! p = Some (File data))
      /\ no_new_dir w w'
      /\ failed stats' - failed stats
         = Z.of_nat (length (failed_files w')) - Z.of_nat (length (failed_files w)).
Proof.
  intros Hfresh. induction audio_files as [|f files IH]; intros i stats w.
  - exists stats, w. split; [reflexivity|]. split; [done|].
    split; [by intros p | lia].
  - cbn [organize_loop]. unfold bind.
    destruct (iteration_summary E self f stats
                (bool_decide (i < count)%nat && delay_positive) w Hfresh)
      as (stats1 & r & w0 & w1 & Hcount & Hproc & Hnap & Hfs & _ & Hff & _).
    rewrite Hcount, Hnap.
    destruct (process_file_dry f w r w0 Hfresh Hproc) as ((b & ->) & Hkeep & Hnd).
    destruct (process_file_summary E self f w _ w0 Hfresh Hproc)
      as (_ & _ & Hfail & _).
    destruct (IH (S i) stats1 w1) as (stats' & w' & Hloop & Hkeep' & Hnd' & Hcnt).
    exists stats', w'. split; [exact Hloop|]. split.
    { intros p data Hl. apply Hkeep'. rewrite Hfs. by apply Hkeep. }
    split.
    { intros p Hp. apply Hnd. rewrite <- Hfs. by apply Hnd'. }
    rewrite Hff in Hcnt.
    assert (Hstats : stats1 = if b then incr_success stats else incr_failed stats).
    { unfold count_file, try_except, bind in Hcount. rewrite Hproc in Hcount.
      destruct b; by injection Hcount as <-. }
    (* in a dry run [False] comes with a listed path *)
    assert (Hb : b = false -> failed_files w0 = failed_files w ++ [f]).
    { intros ->. clear Hfail.
      destruct (valid_file E (fs w) f) eqn:Hv.
      2:{ rewrite (process_file_invalid E self _ _ Hv) in Hproc.
          by injection Hproc as <-. }
      destruct (valid_file_inv E _ _ Hv) as (data & ms & Hfile & Hdec & _).
      destruct (file_hashes w !! md5 E data) as [first|] eqn:Hseen.
      { rewrite (process_file_duplicate E self _ data _ Hv Hfile) in Hproc
          by (rewrite Hseen; eauto). discriminate. }
      rewrite (process_file_new E self _ data _ Hv Hfile Hseen) in Hproc.
      set (wh := set_file_hashes _ w) in *.
      destruct (create_random_clip_run E f (clip_duration self) wh)
        as (w2 & _ & (_ & Hk2 & _) & Hclip).
      change (fs wh) with (fs w) in *. rewrite Hfile, Hdec in Hclip.
      destruct Hclip as (clip & _ & Hcreate). rewrite Hcreate in Hproc.
      destruct (export E data clip) as [encoded|].
      - destruct (identify_and_move_summary E self _ _ _ _ _ Hproc)
          as (_ & Hf & Hp & _).
        simpl in Hf. rewrite Hk2 in Hf.
        destruct Hf as [Hf|[_ Hf]]; [|exact Hf]. exfalso.
        (* a [False] without a listed path would need a failed move *)
        unfold identify_and_move, try_finally in Hproc.
        set (body := bind _ _) in Hproc.
        destruct (body (set_fs _ w2)) as [r1 w3] eqn:Hbody.
        destruct (cleanup_run (mktemp E (fs w)) w3)
          as (w4 & Hclean & _ & (_ & Hkf & _) & _).
        rewrite Hclean in Hproc. injection Hproc as -> <-.
        unfold body, bind in Hbody.
        destruct (identify_song_keeps E (mktemp E (fs w)) default_retries
                    (set_fs (<[mktemp E (fs w) := File encoded]>
                               (<[mktemp E (fs w) := File []]> (fs w))) w2))
          as (o & wa & Hid & _ & (_ & Hka & _)).
        rewrite Hid in Hbody. destruct o as [song_info|].
        + rewrite create_folder_structure_unfold in Hbody.
          unfold bind, ret in Hbody. rewrite Hdry in Hbody.
          unfold move_file in Hbody. rewrite Hdry in Hbody.
          unfold bind, relative_to, ret in Hbody.
          rewrite bool_decide_eq_true_2 in Hbody
            by apply expected_target_under_output.
          unfold append_processed, modify in Hbody. discriminate.
        + unfold append_failed, modify, ret in Hbody.
          injection Hbody as <-. simpl in Hkf, Hka.
          rewrite Hkf in Hf. simpl in Hf. rewrite Hka in Hf. simpl in Hf.
          rewrite Hk2 in Hf. apply (f_equal length) in Hf.
          rewrite length_app in Hf. simpl in Hf. lia.
      - injection Hproc as <-. simpl. by rewrite Hk2. }
    destruct b.
    + destruct Hfail as [Hfail|[? _]]; [|discriminate].
      rewrite Hstats in *. simpl in *. rewrite Hfail in Hcnt. lia.
    + rewrite Hstats in *. simpl in *. rewrite (Hb eq_refl), length_app in Hcnt.
      simpl in Hcnt. lia.
Qed.

End DryRun.

(** X15: a dry run touches no file that exists.  Whatever the loop
    processes in dry-run mode, it never raises, every regular file keeps
    its bytes (duplicates are not removed, nothing is moved), no directory
    is created, and every file counted as failed is also listed: [failed]
    grows exactly as [failed_files] does. *)
Theorem dry_run_keeps_files (E : Env) (self : Config) (delay_positive : bool)
        (count i : nat) (audio_files : list Path) (stats : ProcessingStats)
        (w : World) :
  dry_run self = true ->
  fresh_names E ->
  exists stats' w',
    organize_loop E self delay_positive count i audio_files stats w
    = (Ok stats', w')
    /\ (forall p data, fs w !! p = Some (File data) ->
                       fs w' !! p = Some (File data))
    /\ (forall p, fs w' !! p = Some Dir -> fs w !! p = Some Dir)
    /\ failed stats' - failed stats
       = Z.of_nat (length (failed_files w')) - Z.of_nat (length (failed_files w)).
Proof.
  intros Hdry Hfresh.
  apply (organize_loop_dry E self Hdry delay_positive count audio_files Hfresh).
Qed.

Lemma dry_run_keeps_files_witness :
  exists stats' w',
    organize_loop (Sample.env 20000 true (fun _ => Sample.found))
                  (Sample.config true) true 2 1 [Sample.file_b; Sample.file_a]
                  (new_stats 2) Sample.twins = (Ok stats', w')
    /\ fs w' !! Sample.file_a = Some (File Sample.tune)
    /\ fs w' !! Sample.file_b = Some (File Sample.tune).
Proof.
  destruct (dry_run_keeps_files
              (Sample.env 20000 true (fun _ => Sample.found))
              (Sample.config true) true 2 1 [Sample.file_b; Sample.file_a]
              (new_stats 2) Sample.twins eq_refl (sample_fresh_names _ _ _))
    as (stats' & w' & Hloop & Hkeep & _).
  exists stats', w'. split; [exact Hloop|].
  split; apply Hkeep; vm_compute; reflexivity.
Defined.



(** ** Names that need no cleaning *)

Lemma re_sub_group_absent op cl name :
  op ∉ name -> PyStr.re_sub_group op cl name = name.
Proof.
  induction name as [|c rest IH]; [done|]. intros Hc.
  apply not_elem_of_cons in Hc as [Hne Hrest]. cbn [PyStr.re_sub_group].
  destruct (N.eqb_spec c op) as [->|_]; [done|]. by rewrite IH.
Qed.

Lemma lstrip_keeps chars name :
  (forall c, head name = Some c -> c ∉ chars) -> PyStr.lstrip chars name = name.
Proof.
  destruct name as [|c rest]; [done|]. intros Hc. simpl.
  rewrite bool_decide_eq_false_2; [done|]. by apply Hc.
Qed.

Lemma strip_keeps chars name :
  (forall c, head name = Some c -> c ∉ chars) ->
  (forall c, last name = Some c -> c ∉ chars) ->
  PyStr.strip chars name = name.
Proof.
  intros Hh Hl. unfold PyStr.strip, PyStr.rstrip.
  rewrite (lstrip_keeps chars name Hh).
  rewrite lstrip_keeps; [apply reverse_involutive|].
  intros c. rewrite head_reverse. apply Hl.
Qed.

(** X17: a name that is already clean comes back unchanged: not empty, at
    most 100 characters, free of the nine invalid characters and of
    opening parentheses and brackets, and neither beginning nor ending
    with a space or a dot. *)
Theorem sanitize_filename_clean (name : pystr) :
  name <> [] ->
  (length name <= 100)%nat ->
  (forall c, c ∈ name -> (c ∉ invalid_chars) /\ c <> lparen /\ c <> lbracket) ->
  (forall c, head name = Some c -> c ∉ py ". ") ->
  (forall c, last name = Some c -> c ∉ py ". ") ->
  sanitize_filename name = name.
Proof.
  intros Hne Hlen Hchars Hhead Hlast.
  rewrite SanitizeSpec.sanitize_filename_unfold. unfold cleaned.
  assert (Hrep : replace_invalid name = name).
  { unfold replace_invalid. rewrite <- (list_fmap_id name) at 2.
    apply list_fmap_ext. intros i c Hc.
    apply list_elem_of_lookup_2 in Hc.
    rewrite bool_decide_eq_false_2; [done|]. by apply Hchars. }
  rewrite Hrep.
  rewrite (re_sub_group_absent lparen) by (intros H; by apply Hchars in H as (_ & ? & _)).
  rewrite (re_sub_group_absent lbracket) by (intros H; by apply Hchars in H as (_ & _ & ?)).
  rewrite (strip_keeps _ _ Hhead Hlast).
  rewrite take_ge by lia. by destruct name.
Qed.

Lemma sanitize_filename_clean_witness :
  sanitize_filename (py "Abba") = py "Abba".
Proof.
  apply sanitize_filename_clean.
  - discriminate.
  - vm_compute. lia.
  - apply Forall_forall. apply (bool_decide_unpack _). vm_compute. exact I.
  - intros c Hc. vm_compute in Hc. injection Hc as <-.
    apply (bool_decide_unpack _). vm_compute. exact I.
  - intros c Hc. vm_compute in Hc. injection Hc as <-.
    apply (bool_decide_unpack _). vm_compute. exact I.
Defined.

(** ** From the resolved path to the moved file *)

Lemma ancestors_and_self_length (p q : Path) :
  q ∈ PyPath.ancestors_and_self p -> (length q <= length p)%nat.
Proof.
  revert q. induction p as [|x p IH]; intros q Hq; simpl in *.
  - by apply elem_of_nil in Hq.
  - apply elem_of_cons in Hq as [->|Hq]; [simpl; lia|].
    apply list_elem_of_fmap in Hq as (q' & -> & Hq'). simpl.
    specialize (IH _ Hq'). lia.
Qed.

Lemma expected_folder_snoc (self : Config) (song_info : SongInfo) :
  exists q x, expected_folder self song_info = q ++ [x].
Proof.
  unfold expected_folder, PyPath.div.
  destruct (resolved_album song_info) as [al|];
    [destruct (PyStr.strip_space al)|]; eauto.
Qed.

(** X18: outside a dry run, when [create_folder_structure] has returned a
    path under which nothing was, the move that follows cannot fail: the
    folder is there, so [move_file] reports [True], the file's bytes are
    under the returned path and the source is gone. *)
Theorem organize_to_free_target (E : Env) (self : Config)
        (song_info : SongInfo) (source target : Path) (data : bytes)
        (w w1 : World) :
  dry_run self = false ->
  fs w !! source = Some (File data) ->
  fs w !! expected_target self song_info source = None ->
  create_folder_structure self song_info source w = (Ok target, w1) ->
  target = expected_target self song_info source
  /\ is_dir (fs w1) (expected_folder self song_info) = true
  /\ move_file E self source target w1
     = (Ok true, set_fs (<[target := File data]> (delete source (fs w1))) w1).
Proof.
  intros Hdry Hsrc Hfree Hcreate.
  rewrite create_folder_structure_unfold in Hcreate.
  unfold bind, ret in Hcreate. rewrite Hdry in Hcreate.
  destruct (mkdir_parents_run (expected_folder self song_info) w)
    as [(e & He)|[Hok Hnofile]].
  { rewrite He in Hcreate. discriminate. }
  rewrite Hok in Hcreate. injection Hcreate as <- <-.
  destruct (expected_folder_snoc self song_info) as (q & x & Hfolder).
  set (folder := expected_folder self song_info) in *.
  set (target := expected_target self song_info source) in *.
  assert (Htf : target = folder ++ [sanitize_filename
                  (default (py "Unknown Title") (title song_info))
                  ++ PyPath.suffix source]) by reflexivity.
  assert (Hself : folder ∈ PyPath.ancestors_and_self folder).
  { rewrite Hfolder, ancestors_and_self_snoc. apply elem_of_app. right.
    apply list_elem_of_singleton. reflexivity. }
  assert (Hdir : is_dir (fs (set_fs (foldr (fun q f => <[q := Dir]> f) (fs w)
                     (PyPath.ancestors_and_self folder)) w)) folder = true).
  { unfold is_dir. simpl. rewrite foldr_insert_dir_lookup.
    by rewrite bool_decide_eq_true_2. }
  assert (Hunder : output_folder self `prefix_of` target)
    by apply expected_target_under_output.
  assert (Hnonempty : folder <> []) by (rewrite Hfolder; by destruct q).
  split; [reflexivity|]. split; [exact Hdir|].
  clearbody target folder.
  rewrite (move_file_free_target_aux E self source target data _ Hdry).
  - by rewrite bool_decide_eq_true_2.
  - simpl. rewrite foldr_insert_dir_lookup.
    rewrite bool_decide_eq_false_2; [done|].
    intros Hin. specialize (Hnofile _ Hin). unfold is_file in Hnofile.
    by rewrite Hsrc in Hnofile.
  - simpl. rewrite foldr_insert_dir_lookup.
    rewrite bool_decide_eq_false_2; [done|].
    intros Hin. apply ancestors_and_self_length in Hin.
    rewrite Htf, length_app in Hin. simpl in Hin. lia.
  - unfold parent_is_dir, PyPath.parent. rewrite Htf, removelast_last.
    destruct folder; [done | exact Hdir].
Qed.

Lemma organize_to_free_target_witness :
  exists target w1,
    create_folder_structure (Sample.config false) Sample.song Sample.file_a
                            Sample.twins = (Ok target, w1)
    /\ move_file (Sample.env 20000 true (fun _ => Sample.found))
                 (Sample.config false) Sample.file_a target w1
       = (Ok true,
          set_fs (<[target := File Sample.tune]> (delete Sample.file_a (fs w1)))
                 w1).
Proof.
  eexists _, _. split; [vm_compute; reflexivity|].
  eapply (organize_to_free_target
            (Sample.env 20000 true (fun _ => Sample.found))
            (Sample.config false) Sample.song Sample.file_a _ Sample.tune
            Sample.twins).
  - reflexivity.
  - vm_compute. reflexivity.
  - vm_compute. reflexivity.
  - vm_compute. reflexivity.
Defined.

(** ** What identification and path resolution never do *)

(** X19: [identify_song] has no effect on the file system or on the
    organizer: whatever the transport does, the files, the digest index
    and the two lists are after the call what they were before (only the
    request counter and the sleep log move). *)
Theorem identify_song_effects (E : Env) (clip_path : Path) (retries : Z)
        (w : World) :
  exists r w',
    identify_song E clip_path retries w = (Ok r, w')
    /\ fs w' = fs w
    /\ file_hashes w' = file_hashes w
    /\ failed_files w' = failed_files w
    /\ processed_files w' = processed_files w.
Proof.
  destruct (identify_song_keeps E clip_path retries w)
    as (r & w' & Hrun & Hfs & (H1 & H2 & H3 & _)).
  by exists r, w'.
Qed.

Lemma sanitize_filename_component (name : pystr) :
  sanitize_filename name <> []
  /\ (forall c, head (sanitize_filename name) = Some c -> c ∉ py ". ")
  /\ (forall c, c ∈ invalid_chars -> c ∉ sanitize_filename name).
Proof.
  rewrite SanitizeSpec.sanitize_filename_unfold.
  pose proof (SanitizeSpec.cut_sublist name) as Hsub.
  destruct SanitizeSpec.unknown_facts as (Hu & _).
  destruct (take 100 (cleaned name)) as [|c0 rest] eqn:Hcut.
  - split; [done|]. split.
    + intros c Hc. vm_compute in Hc. injection Hc as <-.
      apply (bool_decide_unpack _). vm_compute. exact I.
    + intros c Hc. by apply (proj1 (Forall_forall _ _) Hu).
  - split; [done|]. split.
    + intros c Hc.
      apply (SanitizeProps.strip_head (py ". ")
               (PyStr.re_sub_group lbracket rbracket
                  (PyStr.re_sub_group lparen rparen (replace_invalid name))) c).
      fold (cleaned name).
      destruct (cleaned name) as [|c1 rest1]; [discriminate|].
      simpl in *. congruence.
    + intros c Hc Hin. apply (SanitizeProps.replace_invalid_clean name c Hc).
      eapply sublist_subseteq; eauto.
Qed.

(** X20: the path that [create_folder_structure] returns cannot leave
    the output folder, whatever the service sent.  It is the output folder
    followed by two or three components; the folder components (artist,
    album) are not empty, do not begin with a dot (so none is [.] or
    [..]) and hold no slash, backslash or other invalid character; the
    file name begins with the sanitized title, so it is not empty and does
    not begin with a dot either. *)
Theorem target_stays_inside_output (self : Config) (song_info : SongInfo)
        (original_file target : Path) (w w' : World) :
  create_folder_structure self song_info original_file w = (Ok target, w') ->
  exists folders file_name,
    target = output_folder self ++ folders ++ [file_name]
    /\ (length folders = 1 \/ length folders = 2)%nat
    /\ Forall (fun component =>
                 component <> []
                 /\ (forall c, head component = Some c -> c ∉ py ". ")
                 /\ (forall c, c ∈ invalid_chars -> c ∉ component))
              folders
    /\ file_name <> []
    /\ (forall c, head file_name = Some c -> c ∉ py ". ").
Proof.
  intros Hrun.
  destruct (create_folder_structure_result _ _ _ _ _ _ Hrun)
    as [[Heq | [e He]] _]; [injection Heq as -> | discriminate].
  unfold expected_target, expected_folder, PyPath.div.
  set (artist_name := sanitize_filename
                        (default (py "Unknown Artist") (artist song_info))).
  set (title_name := sanitize_filename
                       (default (py "Unknown Title") (title song_info))).
  pose proof (sanitize_filename_component
                (default (py "Unknown Artist") (artist song_info))) as Ha.
  pose proof (sanitize_filename_component
                (default (py "Unknown Title") (title song_info))) as (Ht1 & Ht2 & _).
  fold artist_name in Ha. fold title_name in Ht1, Ht2.
  assert (Hname : title_name ++ PyPath.suffix original_file <> []
                  /\ forall c, head (title_name ++ PyPath.suffix original_file)
                               = Some c -> c ∉ py ". ").
  { destruct title_name as [|t0 trest]; [done|]. split; [done|]. exact Ht2. }
  destruct (resolved_album song_info) as [al|];
    [destruct (PyStr.strip_space al) eqn:Hblank|].
  - exists [artist_name], (title_name ++ PyPath.suffix original_file).
    rewrite <- !app_assoc. split; [done|]. split; [by left|].
    split; [by constructor|]. exact Hname.
  - exists [artist_name; sanitize_filename al],
      (title_name ++ PyPath.suffix original_file).
    rewrite <- !app_assoc. split; [done|]. split; [by right|].
    split; [|exact Hname].
    constructor; [done|]. constructor; [|constructor].
    apply sanitize_filename_component.
  - exists [artist_name], (title_name ++ PyPath.suffix original_file).
    rewrite <- !app_assoc. split; [done|]. split; [by left|].
    split; [by constructor|]. exact Hname.
Qed.

Lemma target_stays_inside_output_witness :
  exists target w' folders file_name,
    create_folder_structure (Sample.config false) Sample.song Sample.file_a
                            Sample.twins = (Ok target, w')
    /\ target = Sample.out_dir ++ folders ++ [file_name]
    /\ (length folders = 1 \/ length folders = 2)%nat.
Proof.
  destruct (target_stays_inside_output
              (Sample.config false) Sample.song Sample.file_a
              (expected_target (Sample.config false) Sample.song Sample.file_a)
              Sample.twins
              (snd (create_folder_structure (Sample.config false) Sample.song
                      Sample.file_a Sample.twins)))
    as (folders & file_name & Htarget & Hlen & _).
  - vm_compute. reflexivity.
  - exists (expected_target (Sample.config false) Sample.song Sample.file_a),
      (snd (create_folder_structure (Sample.config false) Sample.song
              Sample.file_a Sample.twins)), folders, file_name.
    split; [vm_compute; reflexivity|]. split; [exact Htarget | exact Hlen].
Defined.
